(** * pyBackup 2.0: a shallow embedding of [pyBackup.2.0.py]

    The script wraps the external [rclone] tool: it configures a logger
    with a rotating file handler and a console handler, then runs
    [rclone sync] once per configured (source, destination) pair and logs
    what happened.

    The embedding is a state-and-exception monad over an explicit
    interpreter state.  Everything the script cannot decide by itself (the
    child processes, the file system, the clock, the platform's signal
    table) is read from an environment record [Env].

    Two parts of the file are models of Python's standard library rather
    than of the script: [Module Logging] (package [logging]) and
    [Module Subprocess] (package [subprocess]).  They follow the CPython
    sources of these packages for the calls the script makes.  A Python
    [str] is modelled by the [string] of its UTF-8 bytes. *)

From Stdlib Require Import ZArith List String Ascii Bool Arith Lia.
From Stdlib Require Import DecimalString.
Import ListNotations.

Local Open Scope string_scope.
Local Open Scope list_scope.

Infix "+++" := String.append (right associativity, at level 60).

(** ** Text: the [str] operations the script uses *)

Module Text.

(** [sep.join(xs)] *)
Definition join (sep : string) (xs : list string) : string :=
  String.concat sep xs.

(** A text from the numbers of its bytes. *)
Definition of_bytes (ns : list nat) : string :=
  string_of_list_ascii (map ascii_of_nat ns).

(** The characters [str.isspace()] accepts, in UTF-8: U+0009 to U+000D,
    U+001C to U+0020, U+0085, U+00A0, U+1680, U+2000 to U+200A, U+2028,
    U+2029, U+202F, U+205F and U+3000. *)
Definition whitespace : list string :=
  map of_bytes
    [ [9]; [10]; [11]; [12]; [13]; [28]; [29]; [30]; [31]; [32];
      [194; 133]; [194; 160]; [225; 154; 128];
      [226; 128; 128]; [226; 128; 129]; [226; 128; 130]; [226; 128; 131];
      [226; 128; 132]; [226; 128; 133]; [226; 128; 134]; [226; 128; 135];
      [226; 128; 136]; [226; 128; 137]; [226; 128; 138];
      [226; 128; 168]; [226; 128; 169]; [226; 128; 175];
      [226; 129; 159]; [227; 128; 128] ].

(** [s] without its prefix [p], when it starts with [p]. *)
Fixpoint drop_prefix (p s : string) : option string :=
  match p, s with
  | EmptyString, _ => Some s
  | String a p', String b s' => if Ascii.eqb a b then drop_prefix p' s' else None
  | String _ _, EmptyString => None
  end.

(** [s] without the first of the texts [ps] it starts with. *)
Fixpoint drop_one (ps : list string) (s : string) : option string :=
  match ps with
  | [] => None
  | p :: rest =>
      match drop_prefix p s with
      | Some s' => Some s'
      | None => drop_one rest s
      end
  end.

(** Drops texts of [ps] from the front of [s], at most [n] times. *)
Fixpoint drop_all (n : nat) (ps : list string) (s : string) : string :=
  match n with
  | O => s
  | S n' =>
      match drop_one ps s with
      | Some s' => drop_all n' ps s'
      | None => s
      end
  end.

Definition reverse (s : string) : string :=
  string_of_list_ascii (rev (list_ascii_of_string s)).

(** [s.lstrip()] *)
Definition lstrip (s : string) : string :=
  drop_all (String.length s) whitespace s.

(** [s.rstrip()] *)
Definition rstrip (s : string) : string :=
  reverse (drop_all (String.length s) (map reverse whitespace) (reverse s)).

(** [s.strip()] *)
Definition strip (s : string) : string := rstrip (lstrip s).

(** ["%d" % z] and [str(z)] for an [int]. *)
Definition str_int (z : Z) : string := NilZero.string_of_int (Z.to_int z).

Definition hex_digit (n : nat) : ascii :=
  nth n ["0"; "1"; "2"; "3"; "4"; "5"; "6"; "7"; "8"; "9";
         "a"; "b"; "c"; "d"; "e"; "f"]%char "0"%char.

Fixpoint contains_char (c : ascii) (s : string) : bool :=
  match s with
  | EmptyString => false
  | String d r => Ascii.eqb c d || contains_char c r
  end.

Definition squote : ascii := "'"%char.
Definition dquote : ascii := ascii_of_nat 34.
Definition backslash : ascii := "\"%char.

(** One byte of [repr(s)], for the chosen quote.  The bytes of a
    character outside ASCII are copied: that is what [repr] does with
    the characters Unicode calls printable. *)
Definition repr_char (quote c : ascii) : string :=
  let n := nat_of_ascii c in
  if Ascii.eqb c quote || Ascii.eqb c backslash then String backslash (String c "")
  else if (n =? 9)%nat then String backslash "t"
  else if (n =? 10)%nat then String backslash "n"
  else if (n =? 13)%nat then String backslash "r"
  else if ((n <? 32) || (n =? 127))%nat then
    String backslash (String "x" (String (hex_digit (n / 16)) (String (hex_digit (n mod 16)) "")))
  else String c "".

Fixpoint repr_body (quote : ascii) (s : string) : string :=
  match s with
  | EmptyString => EmptyString
  | String c r => repr_char quote c +++ repr_body quote r
  end.

(** [repr(s)] for a [str] whose characters outside ASCII are printable:
    single quotes, unless the text has a single quote and no double
    quote. *)
Definition repr_str (s : string) : string :=
  let quote :=
    if contains_char squote s && negb (contains_char dquote s)
    then dquote else squote in
  String quote (repr_body quote s +++ String quote "").

(** [repr(xs)] for a list of [str]. *)
Definition repr_list (xs : list string) : string :=
  "[" +++ join ", " (map repr_str xs) +++ "]".

(** [str(x)] for an optional text: [None] prints as [None]. *)
Definition str_opt (x : option string) : string :=
  match x with
  | None => "None"
  | Some s => s
  end.

(** [needle in hay] *)
Definition occurs_in (needle hay : string) : Prop :=
  exists pre post, hay = pre +++ needle +++ post.

(** [needle in hay], computed. *)
Fixpoint contains (needle hay : string) : bool :=
  match drop_prefix needle hay with
  | Some _ => true
  | None =>
      match hay with
      | EmptyString => false
      | String _ rest => contains needle rest
      end
  end.

End Text.

(** ** Data *)

(** The levels of [logging] the script uses, with their numbers. *)
Inductive Level := DEBUG | INFO | WARNING | ERROR | CRITICAL.

Definition levelno (l : Level) : Z :=
  match l with
  | DEBUG => 10
  | INFO => 20
  | WARNING => 30
  | ERROR => 40
  | CRITICAL => 50
  end%Z.

Definition NOTSET : Z := 0%Z.

(** A log record, before formatting: the formatter of the script adds
    the time of the record in front of level and message. *)
Record LogRecord := mkRecord { levelname : Level; message : string }.

(** Where a handler writes. *)
Inductive Sink :=
| FileSink (filename : string) (maxBytes backupCount : Z)
| StderrSink.

(** A handler object.  [h_id] is the identity of the object: Python's
    [hdlr in self.handlers] compares handlers by identity. *)
Record Handler := mkHandler {
  h_id : nat;
  h_sink : Sink;
  h_level : Z;
  h_formatter : option string
}.

Definition same_handler (a b : Handler) : bool := (h_id a =? h_id b)%nat.

(** What reaches the process's standard error stream. *)
Inductive ConsoleEvent :=
| Mirrored (r : LogRecord)       (* a record written by a console handler *)
| LoggingError (r : LogRecord)   (* the report of [Handler.handleError] *)
| LastResort (r : LogRecord).    (* a record written by [logging.lastResort] *)

(** Exceptions (all of them subclasses of [Exception]). *)
Inductive Exn :=
| CalledProcessError (returncode : Z) (cmd : list string) (output stderr : option string)
| OtherException (text : string).

(** What one call of [readline()] on a pipe of the child does: it
    returns a line, or it raises, as it does with [text=True] on bytes
    that do not decode ([UnicodeDecodeError]). *)
Inductive ReadResult :=
| Line (text : string)
| Raises (text : string).

(** What starting a child process leads to: [Popen] raises, or the child
    runs, writes its two streams and exits.  A stream is given by what
    the successive [readline()] calls on it do before its end; at its end
    [readline()] returns the empty text.  The child is one that
    finishes: a child that blocks for ever, as one that fills the pipe
    of standard error while standard output is being read, is not
    described. *)
Inductive Outcome :=
| LaunchError (text : string)
| Ran (out err : list ReadResult) (code : Z).

(** A child that ran and whose two streams are read to their end. *)
Definition Exited (out err : list string) (code : Z) : Outcome :=
  Ran (map Line out) (map Line err) code.

(** The exit status of the child, if there was one. *)
Definition exit_status (o : Outcome) : option Z :=
  match o with
  | LaunchError _ => None
  | Ran _ _ code => Some code
  end.

Record Env := mkEnv {
  (** can this path be opened for appending? *)
  env_writable : string -> bool;
  (** the outcome of the n-th [Popen] call of the run, for its command *)
  env_popen : nat -> list string -> Outcome;
  (** the text of the [OSError] that opening this path raises when it
      cannot be opened *)
  env_open_error : string -> string;
  (** [signal.Signals(n)]: the name of signal [n], when it has one *)
  env_signals : Z -> option string;
  (** [str(cmd)] for a list of [str]: which characters it escapes
      follows Unicode's table of printable characters *)
  env_repr : list string -> string;
  (** the elapsed minutes, printed with two decimals, read off the clock
      after n child processes *)
  env_elapsed : nat -> string
}.

(** The interpreter state. *)
Record State := mkState {
  ARGS : list string;                       (* the module-global list *)
  logger_level : Z;                         (* logger "rclone_backup" *)
  logger_handlers : list Handler;           (* its handlers *)
  next_id : nat;                            (* next object identity *)
  open_streams : list nat;                  (* file handlers whose stream is open *)
  emitted : list LogRecord;                 (* records the logger passed to its handlers *)
  log_written : list (string * LogRecord);  (* records this run appended, with the file's name *)
  console : list ConsoleEvent;              (* what this run wrote to standard error *)
  popen_calls : list (list string);         (* commands passed to [Popen] *)
  cwd_exists : bool                         (* does the working directory still exist? *)
}.

Definition set_ARGS (v : list string) (st : State) : State :=
  mkState v (logger_level st) (logger_handlers st) (next_id st) (open_streams st)
          (emitted st) (log_written st) (console st) (popen_calls st) (cwd_exists st).

Definition set_logger_level (v : Z) (st : State) : State :=
  mkState (ARGS st) v (logger_handlers st) (next_id st) (open_streams st)
          (emitted st) (log_written st) (console st) (popen_calls st) (cwd_exists st).

Definition set_logger_handlers (v : list Handler) (st : State) : State :=
  mkState (ARGS st) (logger_level st) v (next_id st) (open_streams st)
          (emitted st) (log_written st) (console st) (popen_calls st) (cwd_exists st).

Definition set_next_id (v : nat) (st : State) : State :=
  mkState (ARGS st) (logger_level st) (logger_handlers st) v (open_streams st)
          (emitted st) (log_written st) (console st) (popen_calls st) (cwd_exists st).

Definition set_open_streams (v : list nat) (st : State) : State :=
  mkState (ARGS st) (logger_level st) (logger_handlers st) (next_id st) v
          (emitted st) (log_written st) (console st) (popen_calls st) (cwd_exists st).

Definition set_emitted (v : list LogRecord) (st : State) : State :=
  mkState (ARGS st) (logger_level st) (logger_handlers st) (next_id st) (open_streams st)
          v (log_written st) (console st) (popen_calls st) (cwd_exists st).

Definition set_log_written (v : list (string * LogRecord)) (st : State) : State :=
  mkState (ARGS st) (logger_level st) (logger_handlers st) (next_id st) (open_streams st)
          (emitted st) v (console st) (popen_calls st) (cwd_exists st).

Definition set_console (v : list ConsoleEvent) (st : State) : State :=
  mkState (ARGS st) (logger_level st) (logger_handlers st) (next_id st) (open_streams st)
          (emitted st) (log_written st) v (popen_calls st) (cwd_exists st).

Definition set_popen_calls (v : list (list string)) (st : State) : State :=
  mkState (ARGS st) (logger_level st) (logger_handlers st) (next_id st) (open_streams st)
          (emitted st) (log_written st) (console st) v (cwd_exists st).

Definition set_cwd_exists (v : bool) (st : State) : State :=
  mkState (ARGS st) (logger_level st) (logger_handlers st) (next_id st) (open_streams st)
          (emitted st) (log_written st) (console st) (popen_calls st) v.

(** ** The monad: state and exceptions *)

Inductive Result (A : Type) :=
| Ok (a : A) (st : State)
| Raise (e : Exn) (st : State).

Arguments Ok {A} a st.
Arguments Raise {A} e st.

Definition M (A : Type) : Type := State -> Result A.

Definition ret {A} (a : A) : M A := fun st => Ok a st.

Definition bind {A B} (c : M A) (k : A -> M B) : M B :=
  fun st =>
    match c st with
    | Ok a st' => k a st'
    | Raise e st' => Raise e st'
    end.

Definition raise {A} (e : Exn) : M A := fun st => Raise e st.

Definition get : M State := fun st => Ok st st.

Definition modify (f : State -> State) : M unit := fun st => Ok tt (f st).

(** [try: body except ...: ...]: [clauses e] is the body of the first
    [except] clause that matches [e], if one does. *)
Definition try_except {A} (body : M A) (clauses : Exn -> option (M A)) : M A :=
  fun st =>
    match body st with
    | Ok a st' => Ok a st'
    | Raise e st' =>
        match clauses e with
        | Some handler => handler st'
        | None => Raise e st'
        end
    end.

Declare Scope monad_scope.
Delimit Scope monad_scope with monad.
Notation "x <- c ;; k" := (bind c (fun x => k))
  (at level 100, c at next level, right associativity) : monad_scope.
Notation "c ;; k" := (bind c (fun _ => k))
  (at level 100, right associativity) : monad_scope.
Local Open Scope monad_scope.

(** [for x in xs: body(x)] *)
Fixpoint for_each {A} (xs : list A) (body : A -> M unit) : M unit :=
  match xs with
  | [] => ret tt
  | x :: rest => body x ;; for_each rest body
  end.

Definition final_state {A} (r : Result A) : State :=
  match r with
  | Ok _ st => st
  | Raise _ st => st
  end.


(** ** Python's [logging] package, for the calls the script makes

    One logger exists, the one named [rclone_backup]; its level and its
    handler list are fields of the state.  Its parent is the root logger,
    which the script leaves without handlers and at its default level
    [WARNING]. *)

Module Logging.
Section WithEnv.

Variable env : Env.

Definition root_level : Z := levelno WARNING.

(** [Logger.getEffectiveLevel]: a logger at [NOTSET] takes the level of
    its parent. *)
Definition getEffectiveLevel (st : State) : Z :=
  if (logger_level st =? NOTSET)%Z then root_level else logger_level st.

Definition isEnabledFor (l : Level) (st : State) : bool :=
  (getEffectiveLevel st <=? levelno l)%Z.

(** [Handler.__init__]: a new object at level [NOTSET], no formatter. *)
Definition new_handler (sink : Sink) : M Handler :=
  fun st => Ok (mkHandler (next_id st) sink NOTSET None)
               (set_next_id (S (next_id st)) st).

(** [logging.StreamHandler()]: writes to standard error. *)
Definition StreamHandler : M Handler := new_handler StderrSink.

Definition stream_is_open (h : Handler) (st : State) : bool :=
  existsb (Nat.eqb (h_id h)) (open_streams st).

Definition open_stream (h : Handler) (st : State) : State :=
  set_open_streams (h_id h :: open_streams st) st.

(** [os.path.isabs(path)] *)
Definition isabs (path : string) : bool :=
  match path with
  | String c _ => Ascii.eqb c "/"
  | EmptyString => false
  end.

(** The text of the [FileNotFoundError] of [os.getcwd()] in a working
    directory that was removed. *)
Definition getcwd_error : string := "[Errno 2] No such file or directory".

(** [os.path.abspath(path)], for whether it raises: a path that is not
    absolute is joined to [os.getcwd()], which raises when the working
    directory was removed. *)
Definition abspath (path : string) : M string :=
  fun st =>
    if cwd_exists st || isabs path then Ok path st
    else Raise (OtherException getcwd_error) st.

(** [RotatingFileHandler(filename, maxBytes=, backupCount=, delay=)]:
    the constructor first takes [os.path.abspath(filename)]; then, with
    [delay], the file is not opened here; without it the file is opened
    at once and the error of [open] is raised.  The sink keeps the name
    as it was given. *)
Definition RotatingFileHandler (filename : string) (maxBytes backupCount : Z)
    (delay : bool) : M Handler :=
  abspath filename ;;
  h <- new_handler (FileSink filename maxBytes backupCount) ;;
  if delay then ret h
  else if env_writable env filename then modify (open_stream h) ;; ret h
  else raise (OtherException (env_open_error env filename)).

Definition Handler_setLevel (h : Handler) (lvl : Z) : Handler :=
  mkHandler (h_id h) (h_sink h) lvl (h_formatter h).

Definition Handler_setFormatter (h : Handler) (fmt : string) : Handler :=
  mkHandler (h_id h) (h_sink h) (h_level h) (Some fmt).

Definition getLogger (name : string) : M string := ret name.

Definition Logger_setLevel (lvl : Z) : M unit := modify (set_logger_level lvl).

(** [Logger.addHandler]: appends the handler unless it is in the list. *)
Definition addHandler (hdlr : Handler) : M unit :=
  modify (fun st =>
    if existsb (same_handler hdlr) (logger_handlers st) then st
    else set_logger_handlers (logger_handlers st ++ [hdlr]) st).

(** [list.remove]: drops the first occurrence. *)
Fixpoint remove_first (hdlr : Handler) (hs : list Handler) : list Handler :=
  match hs with
  | [] => []
  | h :: rest => if same_handler hdlr h then rest else h :: remove_first hdlr rest
  end.

(** [Logger.removeHandler]: removes the handler if it is in the list. *)
Definition removeHandler (hdlr : Handler) : M unit :=
  modify (fun st =>
    if existsb (same_handler hdlr) (logger_handlers st)
    then set_logger_handlers (remove_first hdlr (logger_handlers st)) st
    else st).

(** [Handler.emit].  A console handler writes the record to standard
    error.  The rotating file handler opens its stream if it has none,
    then writes; when that raises, [emit] catches the exception and
    calls [handleError], which reports on standard error and returns.
    Rotation moves what was written from one file of the set to the
    next; [log_written] keeps the records in the order they were
    written. *)
Definition emit (h : Handler) (r : LogRecord) (st : State) : State :=
  match h_sink h with
  | StderrSink => set_console (console st ++ [Mirrored r]) st
  | FileSink f _ _ =>
      if stream_is_open h st then
        set_log_written (log_written st ++ [(f, r)]) st
      else if env_writable env f then
        set_log_written (log_written st ++ [(f, r)]) (open_stream h st)
      else set_console (console st ++ [LoggingError r]) st
  end.

Fixpoint call_each (hs : list Handler) (r : LogRecord) (st : State) : State :=
  match hs with
  | [] => st
  | h :: rest =>
      call_each rest r
        (if (h_level h <=? levelno (levelname r))%Z then emit h r st else st)
  end.

(** [Logger.callHandlers]: every handler of the logger whose level
    admits the record; the root logger has none to add.  When no
    handler was found at all, [lastResort] (level [WARNING]) writes. *)
Definition callHandlers (r : LogRecord) (st : State) : State :=
  match logger_handlers st with
  | [] =>
      if (levelno WARNING <=? levelno (levelname r))%Z
      then set_console (console st ++ [LastResort r]) st
      else st
  | hs => call_each hs r st
  end.

(** [Logger.log(level, msg)] *)
Definition log (l : Level) (msg : string) : M unit :=
  fun st =>
    if isEnabledFor l st then
      let r := mkRecord l msg in
      Ok tt (callHandlers r (set_emitted (emitted st ++ [r]) st))
    else Ok tt st.

Definition debug : string -> M unit := log DEBUG.
Definition info : string -> M unit := log INFO.
Definition error : string -> M unit := log ERROR.

End WithEnv.
End Logging.

(** ** Python's [subprocess] package, for the calls the script makes *)

Module Subprocess.
Section WithEnv.

Variable env : Env.

(** A started child: its two pipes and its exit status. *)
Record Process := mkProcess {
  stdout : list ReadResult;
  stderr : list ReadResult;
  returncode_of : Z
}.

(** [Popen(command, stdout=PIPE, stderr=PIPE, text=True)] *)
Definition Popen (command : list string) : M Process :=
  fun st =>
    let st' := set_popen_calls (popen_calls st ++ [command]) st in
    match env_popen env (List.length (popen_calls st)) command with
    | LaunchError text => Raise (OtherException text) st'
    | Ran out err code => Ok (mkProcess out err code) st'
    end.

(** [for line in iter(stream.readline, ""): body(line)]: the loop calls
    [readline()], stops when it returns the empty text, as it does at the
    end of the stream, and lets what it raises pass. *)
Fixpoint for_each_line (stream : list ReadResult) (body : string -> M unit) : M unit :=
  match stream with
  | [] => ret tt
  | Line line :: rest =>
      if String.eqb line "" then ret tt
      else body line ;; for_each_line rest body
  | Raises text :: _ => raise (OtherException text)
  end.

(** The lines [iter(stream.readline, "")] yields on a stream whose reads
    all succeed: the lines up to the first empty text. *)
Fixpoint iter_readline (stream : list string) : list string :=
  match stream with
  | [] => []
  | line :: rest => if String.eqb line "" then [] else line :: iter_readline rest
  end.

Definition wait (p : Process) : Z := returncode_of p.

(** [repr] of a member of [signal.Signals]. *)
Definition repr_signal (name : string) (n : Z) : string :=
  "<Signals." +++ name +++ ": " +++ Text.str_int n +++ ">".

(** [CalledProcessError.__str__] *)
Definition str_CalledProcessError (returncode : Z) (cmd : list string) : string :=
  if (returncode <? 0)%Z then
    match env_signals env (- returncode)%Z with
    | Some name =>
        "Command '" +++ env_repr env cmd +++ "' died with "
          +++ repr_signal name (- returncode)%Z +++ "."
    | None =>
        "Command '" +++ env_repr env cmd +++ "' died with unknown signal "
          +++ Text.str_int (- returncode)%Z +++ "."
    end
  else
    "Command '" +++ env_repr env cmd +++ "' returned non-zero exit status "
      +++ Text.str_int returncode +++ ".".

(** [str(e)] *)
Definition str_exn (e : Exn) : string :=
  match e with
  | CalledProcessError returncode cmd _ _ => str_CalledProcessError returncode cmd
  | OtherException text => text
  end.

End WithEnv.
End Subprocess.

(** ** The script *)

(** The module-level constants.  [BACKUP_LOCATIONS] is a [dict]; it is
    given by its items in insertion order, which is the order the loop of
    [main] visits them in. *)
Record Config := mkConfig {
  HOME_DIR : string;
  BACKUP_LOCATIONS : list (string * string);
  ARGS_literal : list string;
  HOME_ARGS : list string;
  CONSOLE_OUTPUT : bool;
  LOG_LEVEL : Z;
  LOG_FILE : string;
  LOG_SIZE : Z;
  LOG_BACKUPS : Z
}.

(** The constants as the script defines them. *)
Definition script_config : Config := {|
  HOME_DIR := "/home/siskourso/";
  BACKUP_LOCATIONS :=
    [ ("/home/siskourso/Downloads/", "gdrive:/Backups/-Orion-/Downloads/");
      ("/home/siskourso/Working/", "gdrive:/Backups/-Orion-/Working/");
      ("/home/siskourso/", "gdrive:/Backups/-Orion-/Home/") ];
  ARGS_literal :=
    [ "--transfers=10";
      "--progress";
      "--verbose";
      "--exclude=*/*.log";
      "--drive-chunk-size=64M" ];
  HOME_ARGS :=
    [ "--exclude=.*/";
      "--exclude=.*";
      "--exclude=*/*.log";
      "--exclude=Downloads/";
      "--exclude=Working/";
      "--exclude=Templates/";
      "--exclude=Public/";
      "--exclude=go/";
      "--exclude=Desktop/";
      "--exclude=gPodder/";
      "--exclude=snap/";
      "--exclude=Documents/test.pcapng" ];
  CONSOLE_OUTPUT := true;
  LOG_LEVEL := levelno DEBUG;
  LOG_FILE := "pyBackup.log";
  LOG_SIZE := 104857600;
  LOG_BACKUPS := 5
|}.

(** The state when the interpreter has evaluated the constants: the
    logger exists in name only, nothing has been written or started. *)
Definition initial_state (cfg : Config) : State := {|
  ARGS := ARGS_literal cfg;
  logger_level := NOTSET;
  logger_handlers := [];
  next_id := 0;
  open_streams := [];
  emitted := [];
  log_written := [];
  console := [];
  popen_calls := [];
  cwd_exists := true
|}.

Section Script.

Variable env : Env.
Variable cfg : Config.

Definition log_formatting : string := "%(asctime)s - %(levelname)s - %(message)s".

(** [setup_logging(log_file, max_bytes, backup_count, log_level)];
    returns the logger (by its name) and the console handler. *)
Definition setup_logging (log_file : string) (max_bytes backup_count log_level : Z)
    : M (string * Handler) :=
  log_handler <- Logging.RotatingFileHandler env log_file max_bytes backup_count true ;;
  console_logging <- Logging.StreamHandler ;;
  let log_handler := Logging.Handler_setLevel log_handler log_level in
  let console_logging := Logging.Handler_setLevel console_logging log_level in
  let log_handler := Logging.Handler_setFormatter log_handler log_formatting in
  let console_logging := Logging.Handler_setFormatter console_logging log_formatting in
  logger <- Logging.getLogger "rclone_backup" ;;
  Logging.Logger_setLevel log_level ;;
  Logging.addHandler log_handler ;;
  Logging.addHandler console_logging ;;
  ret (logger, console_logging).

(** [console_output(enabled)]; the module global [console_logging] it
    reads is its first argument here. *)
Definition console_output (console_logging : Handler) (enabled : bool) : M unit :=
  if enabled then
    Logging.addHandler console_logging ;;
    Logging.info env "Console logging enabled"
  else
    Logging.removeHandler console_logging ;;
    Logging.info env "Console logging disabled".

(** [rclone_sync(source, destination, args=None)] *)
Definition rclone_sync (source destination : string) (args : option (list string))
    : M unit :=
  let command := ["rclone"; "sync"; source; destination] in
  let command :=
    match args with
    | Some a => command ++ a
    | None => command
    end in
  Logging.info env ("Running command: " +++ Text.join " " command) ;;
  try_except
    (process <- Subprocess.Popen env command ;;
     Subprocess.for_each_line (Subprocess.stdout process)
       (fun stdout_line => Logging.debug env (Text.strip stdout_line)) ;;
     Subprocess.for_each_line (Subprocess.stderr process)
       (fun stderr_line => Logging.debug env (Text.strip stderr_line)) ;;
     let return_code := Subprocess.wait process in
     (if negb (return_code =? 0)%Z
      then raise (CalledProcessError return_code command None None)
      else ret tt) ;;
     Logging.info env ("Sync completed for " +++ source +++ " to " +++ destination))
    (fun e =>
       match e with
       | CalledProcessError _ _ out err =>
           Some (Logging.error env ("Error syncing " +++ source +++ " to " +++ destination
                                      +++ ": " +++ Subprocess.str_exn env e) ;;
                 Logging.error env ("stdout: " +++ Text.str_opt out) ;;
                 Logging.error env ("stderr: " +++ Text.str_opt err))
       | OtherException _ =>
           Some (Logging.error env ("An error occurred: " +++ Subprocess.str_exn env e))
       end).

(** [ARGS.extend(HOME_ARGS)]: the global list grows in place. *)
Definition ARGS_extend (more : list string) : M unit :=
  modify (fun st => set_ARGS (ARGS st ++ more) st).

(** The loop of [main] over [BACKUP_LOCATIONS.items()]. *)
Fixpoint main_loop (items : list (string * string)) : M unit :=
  match items with
  | [] => ret tt
  | (source, destination) :: rest =>
      (if String.eqb source (HOME_DIR cfg)
       then ARGS_extend (HOME_ARGS cfg)
       else ret tt) ;;
      Logging.info env ("Syncing " +++ source +++ " to " +++ destination) ;;
      st <- get ;;
      rclone_sync source destination (Some (ARGS st)) ;;
      main_loop rest
  end.

(** [main()] *)
Definition main : M unit :=
  main_loop (BACKUP_LOCATIONS cfg) ;;
  st <- get ;;
  Logging.info env ("Backup process completed in "
                      +++ env_elapsed env (List.length (popen_calls st)) +++ " minutes").

(** The module, top to bottom: [setup_logging()] with its defaults,
    [console_output(CONSOLE_OUTPUT)] and, when the file is run as a
    script, [main()].  The result is the console handler the module
    global [console_logging] holds. *)
Definition module_body (as_script : bool) : M Handler :=
  r <- setup_logging (LOG_FILE cfg) (LOG_SIZE cfg) (LOG_BACKUPS cfg) (LOG_LEVEL cfg) ;;
  let console_logging := snd r in
  console_output console_logging (CONSOLE_OUTPUT cfg) ;;
  (if as_script then main else ret tt) ;;
  ret console_logging.

(** The exit code of [python3 pyBackup.2.0.py]: 0 when the module body
    runs to its end, 1 when an exception leaves it. *)
Definition exit_code : Z :=
  match module_body true (initial_state cfg) with
  | Ok _ _ => 0
  | Raise _ _ => 1
  end.

End Script.

(** ** Vocabulary of the statements *)

(** The state a log call leaves.  *)
Definition log_state (env : Env) (l : Level) (msg : string) (st : State) : State :=
  if Logging.isEnabledFor l st
  then Logging.callHandlers env (mkRecord l msg)
         (set_emitted (emitted st ++ [mkRecord l msg]) st)
  else st.

(** The records of a list the logger accepts in a state. *)
Definition accepted (st : State) (recs : list LogRecord) : list LogRecord :=
  filter (fun r => Logging.isEnabledFor (levelname r) st) recs.

(** Fields a handler never touches. *)
Definition untouched (st st' : State) : Prop :=
  ARGS st' = ARGS st /\ logger_level st' = logger_level st /\
  logger_handlers st' = logger_handlers st /\ next_id st' = next_id st /\
  emitted st' = emitted st /\ popen_calls st' = popen_calls st.

(** What a step of the script does to the fields the claims observe:
    level and handlers stay, and [ARGS], the list of [Popen] calls and
    the list of records only grow. *)
Definition effect (st st' : State) (recs : list LogRecord)
    (cmds : list (list string)) (extra : list string) : Prop :=
  logger_level st' = logger_level st /\
  logger_handlers st' = logger_handlers st /\
  ARGS st' = ARGS st ++ extra /\
  popen_calls st' = popen_calls st ++ cmds /\
  emitted st' = emitted st ++ accepted st recs.

(** Logging a list of records, one after the other. *)
Definition log_all (env : Env) (recs : list LogRecord) (st : State) : State :=
  fold_left (fun s r => log_state env (levelname r) (message r) s) recs st.

(** The command line [rclone_sync] builds. *)
Definition sync_command (source destination : string) (args : option (list string))
    : list string :=
  match args with
  | Some a => ["rclone"; "sync"; source; destination] ++ a
  | None => ["rclone"; "sync"; source; destination]
  end.

(** The lines the loop over a pipe hands to its body. *)
Fixpoint lines_read (stream : list ReadResult) : list string :=
  match stream with
  | [] => []
  | Line line :: rest => if String.eqb line "" then [] else line :: lines_read rest
  | Raises _ :: _ => []
  end.

(** The text of what the loop over a pipe raises, if it raises. *)
Fixpoint read_error (stream : list ReadResult) : option string :=
  match stream with
  | [] => None
  | Line line :: rest => if String.eqb line "" then None else read_error rest
  | Raises text :: _ => Some text
  end.

(** The debug records of lines of the child. *)
Definition line_records (lines : list string) : list LogRecord :=
  map (fun line => mkRecord DEBUG (Text.strip line)) lines.

(** The debug records of one stream of the child, when its reads all
    succeed. *)
Definition debug_records (stream : list string) : list LogRecord :=
  map (fun line => mkRecord DEBUG (Text.strip line)) (Subprocess.iter_readline stream).

Definition running_record (command : list string) : LogRecord :=
  mkRecord INFO ("Running command: " +++ Text.join " " command).

Definition completed_record (source destination : string) : LogRecord :=
  mkRecord INFO ("Sync completed for " +++ source +++ " to " +++ destination).

Definition failed_record (env : Env) (source destination : string) (code : Z)
    (command : list string) : LogRecord :=
  mkRecord ERROR ("Error syncing " +++ source +++ " to " +++ destination +++ ": "
                    +++ Subprocess.str_CalledProcessError env code command).

(** The record of the [except Exception] clause. *)
Definition launch_record (text : string) : LogRecord :=
  mkRecord ERROR ("An error occurred: " +++ text).

(** The records for the exit status of a child whose streams were read
    to their end. *)
Definition exit_records (env : Env) (source destination : string)
    (command : list string) (code : Z) : list LogRecord :=
  if (code =? 0)%Z then [completed_record source destination]
  else [failed_record env source destination code command;
        mkRecord ERROR "stdout: None"; mkRecord ERROR "stderr: None"].

(** The records one call of [rclone_sync] hands to the logger once it has
    called [Popen], by the outcome of the child. *)
Definition outcome_records (env : Env) (source destination : string)
    (command : list string) (o : Outcome) : list LogRecord :=
  match o with
  | LaunchError text => [launch_record text]
  | Ran out err code =>
      line_records (lines_read out) ++
      match read_error out with
      | Some text => [launch_record text]
      | None =>
          line_records (lines_read err) ++
          match read_error err with
          | Some text => [launch_record text]
          | None => exit_records env source destination command code
          end
      end
  end.

(** All the records of one call of [rclone_sync]. *)
Definition sync_records (env : Env) (source destination : string)
    (command : list string) (o : Outcome) : list LogRecord :=
  running_record command :: outcome_records env source destination command o.

(** The state one call of [rclone_sync] leaves. *)
Definition sync_state (env : Env) (source destination : string)
    (args : option (list string)) (st : State) : State :=
  let command := sync_command source destination args in
  let st1 := log_state env INFO ("Running command: " +++ Text.join " " command) st in
  let st2 := set_popen_calls (popen_calls st ++ [command]) st1 in
  log_all env
    (outcome_records env source destination command
       (env_popen env (List.length (popen_calls st)) command))
    st2.

(** A property of states that no step of the script breaks. *)
Definition preserved (env : Env) (I : State -> Prop) : Prop :=
  (forall l msg st, I st -> I (log_state env l msg st)) /\
  (forall c st, I st -> I (set_popen_calls c st)) /\
  (forall a st, I st -> I (set_ARGS a st)).

(** The argument list the iteration for [source] passes on, from the
    list it finds in [ARGS]. *)
Definition args_for (cfg : Config) (args : list string) (source : string) : list string :=
  if String.eqb source (HOME_DIR cfg) then args ++ HOME_ARGS cfg else args.

(** The state one iteration of the loop of [main] leaves. *)
Definition iter_state (env : Env) (cfg : Config) (source destination : string)
    (st : State) : State :=
  let st1 := if String.eqb source (HOME_DIR cfg)
             then set_ARGS (ARGS st ++ HOME_ARGS cfg) st else st in
  let st2 := log_state env INFO ("Syncing " +++ source +++ " to " +++ destination) st1 in
  sync_state env source destination (Some (ARGS st2)) st2.

(** The state the loop of [main] leaves. *)
Fixpoint loop_state (env : Env) (cfg : Config) (items : list (string * string))
    (st : State) : State :=
  match items with
  | [] => st
  | (source, destination) :: rest =>
      loop_state env cfg rest (iter_state env cfg source destination st)
  end.

(** The commands the loop of [main] passes to [Popen], from the list it
    finds in [ARGS]. *)
Fixpoint loop_commands (cfg : Config) (args : list string)
    (items : list (string * string)) : list (list string) :=
  match items with
  | [] => []
  | (source, destination) :: rest =>
      sync_command source destination (Some (args_for cfg args source))
        :: loop_commands cfg (args_for cfg args source) rest
  end.

(** The list [ARGS] holds when the loop of [main] is over. *)
Fixpoint loop_args (cfg : Config) (args : list string)
    (items : list (string * string)) : list string :=
  match items with
  | [] => args
  | (source, _) :: rest => loop_args cfg (args_for cfg args source) rest
  end.

(** The state [main] leaves. *)
Definition main_state (env : Env) (cfg : Config) (st : State) : State :=
  let st1 := loop_state env cfg (BACKUP_LOCATIONS cfg) st in
  log_state env INFO
    ("Backup process completed in "
       +++ env_elapsed env (List.length (popen_calls st1)) +++ " minutes") st1.

(** The command of a pair, for an argument list. *)
Definition pair_command (args : list string) (pair : string * string) : list string :=
  sync_command (fst pair) (snd pair) (Some args).

(** The state [console_output] leaves. *)
Definition toggle_state (env : Env) (console_logging : Handler) (enabled : bool)
    (st : State) : State :=
  if enabled then
    log_state env INFO "Console logging enabled"
      (if existsb (same_handler console_logging) (logger_handlers st) then st
       else set_logger_handlers (logger_handlers st ++ [console_logging]) st)
  else
    log_state env INFO "Console logging disabled"
      (if existsb (same_handler console_logging) (logger_handlers st)
       then set_logger_handlers
              (Logging.remove_first console_logging (logger_handlers st)) st
       else st).

(** The notice a call of [console_output] logs. *)
Definition toggle_notice (enabled : bool) : LogRecord :=
  mkRecord INFO (if enabled then "Console logging enabled" else "Console logging disabled").

(** The records on standard error that a console handler wrote. *)
Fixpoint mirrored (events : list ConsoleEvent) : list LogRecord :=
  match events with
  | [] => []
  | Mirrored r :: rest => r :: mirrored rest
  | _ :: rest => mirrored rest
  end.

(** The handlers [setup_logging] creates in the initial state. *)
Definition file_handler (cfg : Config) : Handler :=
  mkHandler 0 (FileSink (LOG_FILE cfg) (LOG_SIZE cfg) (LOG_BACKUPS cfg))
            (LOG_LEVEL cfg) (Some log_formatting).

Definition console_handler (cfg : Config) : Handler :=
  mkHandler 1 StderrSink (LOG_LEVEL cfg) (Some log_formatting).

(** The state [setup_logging], called with the defaults, leaves. *)
Definition setup_state (cfg : Config) : State := {|
  ARGS := ARGS_literal cfg;
  logger_level := LOG_LEVEL cfg;
  logger_handlers := [file_handler cfg; console_handler cfg];
  next_id := 2;
  open_streams := [];
  emitted := [];
  log_written := [];
  console := [];
  popen_calls := [];
  cwd_exists := true
|}.

(** The state a sequence of calls of [console_output] leaves. *)
Definition toggles_state (env : Env) (console_logging : Handler) (calls : list bool)
    (st : State) : State :=
  fold_left (fun s enabled => toggle_state env console_logging enabled s) calls st.

(** The handler list is one of the two the script can reach. *)
Definition reachable_handlers (cfg : Config) (st : State) : Prop :=
  logger_handlers st = [file_handler cfg; console_handler cfg] \/
  logger_handlers st = [file_handler cfg].

(** ** Sample runs *)

(** Three pairs, the home pair in the middle. *)
Definition sample_config : Config := {|
  HOME_DIR := "/home/u/";
  BACKUP_LOCATIONS :=
    [ ("/srv/a/", "remote:a/"); ("/home/u/", "remote:home/"); ("/srv/b/", "remote:b/") ];
  ARGS_literal := ["--verbose"];
  HOME_ARGS := ["--exclude=.*"];
  CONSOLE_OUTPUT := true;
  LOG_LEVEL := levelno DEBUG;
  LOG_FILE := "pyBackup.log";
  LOG_SIZE := 1000;
  LOG_BACKUPS := 2
|}.

(** The first child succeeds, the second exits with status 1, the third
    is killed by signal 9, and from then on [rclone] cannot be started;
    the streams of the three children are read to their end. *)
Definition sample_env (writable : bool) : Env := {|
  env_writable := fun _ => writable;
  env_open_error := fun path => "[Errno 13] Permission denied: " +++ Text.repr_str path;
  env_popen := fun n _ =>
    match n with
    | 0 => Exited ["Transferred: 1 / 1, 100%" +++ String (ascii_of_nat 10) ""]
                  ["NOTICE: done" +++ String (ascii_of_nat 10) ""] 0
    | 1 => Exited [] ["ERROR: quota" +++ String (ascii_of_nat 10) ""] 1
    | 2 => Exited [] [] (-9)
    | _ => LaunchError "[Errno 2] No such file or directory: 'rclone'"
    end;
  env_signals := fun n => if (n =? 9)%Z then Some "SIGKILL" else None;
  env_repr := Text.repr_list;
  env_elapsed := fun _ => "0.02"
|}.

(** A run in which the log file cannot be opened. *)
Definition unwritable_env : Env := sample_env false.

(** The sample configuration set up, with [n] children started before. *)
Definition sample_state (n : nat) : State :=
  set_popen_calls (repeat ["rclone"] n) (setup_state sample_config).

(** ** Vocabulary of the further properties *)

(** The records one iteration of the loop of [main] hands to the logger:
    [n] children were started before it, and it finds [args] in [ARGS]. *)
Definition iter_records (env : Env) (cfg : Config) (n : nat) (args : list string)
    (source destination : string) : list LogRecord :=
  let command := sync_command source destination (Some (args_for cfg args source)) in
  mkRecord INFO ("Syncing " +++ source +++ " to " +++ destination)
    :: sync_records env source destination command (env_popen env n command).

(** The records of the whole loop. *)
Fixpoint loop_records (env : Env) (cfg : Config) (n : nat) (args : list string)
    (items : list (string * string)) : list LogRecord :=
  match items with
  | [] => []
  | (source, destination) :: rest =>
      iter_records env cfg n args source destination
        ++ loop_records env cfg (S n) (args_for cfg args source) rest
  end.

(** The record [main] ends with. *)
Definition elapsed_record (elapsed : string) : LogRecord :=
  mkRecord INFO ("Backup process completed in " +++ elapsed +++ " minutes").


(** With a log file that cannot be opened, and the console attached:
    every emitted record is reported by the file handler as a logging
    error and then written by the console handler. *)
Definition errors_reported (cfg : Config) (st : State) : Prop :=
  logger_level st = LOG_LEVEL cfg /\
  logger_handlers st = [file_handler cfg; console_handler cfg] /\
  open_streams st = [] /\
  log_written st = [] /\
  console st = flat_map (fun r => [LoggingError r; Mirrored r]) (emitted st).

(** [main()], [n] times in a row. *)
Definition main_times (env : Env) (cfg : Config) (n : nat) : M unit :=
  for_each (repeat tt n) (fun _ => main env cfg).

(** The sample configuration with the home marker set to a directory
    that is not configured. *)
Definition no_home_config : Config := {|
  HOME_DIR := "/home/nobody/";
  BACKUP_LOCATIONS := BACKUP_LOCATIONS sample_config;
  ARGS_literal := ARGS_literal sample_config;
  HOME_ARGS := HOME_ARGS sample_config;
  CONSOLE_OUTPUT := CONSOLE_OUTPUT sample_config;
  LOG_LEVEL := LOG_LEVEL sample_config;
  LOG_FILE := LOG_FILE sample_config;
  LOG_SIZE := LOG_SIZE sample_config;
  LOG_BACKUPS := LOG_BACKUPS sample_config
|}.

(** The sample state with the logger raised to [WARNING]. *)
Definition quiet_state : State := set_logger_level (levelno WARNING) (sample_state 0).

(** ** Vocabulary for the log file and for children that cannot be read *)

(** The records on standard error that [handleError] reported. *)
Fixpoint logging_errors (events : list ConsoleEvent) : list LogRecord :=
  match events with
  | [] => []
  | LoggingError r :: rest => r :: logging_errors rest
  | _ :: rest => logging_errors rest
  end.

(** With a log file that cannot be opened: the file handler is attached
    and has no stream, nothing was written to the file, and every record
    the logger emitted was reported as a logging error, once. *)
Definition failures_reported (cfg : Config) (st : State) : Prop :=
  logger_level st = LOG_LEVEL cfg /\
  reachable_handlers cfg st /\
  open_streams st = [] /\
  log_written st = [] /\
  logging_errors (console st) = emitted st.

(** The exit code of the interpreter, by how the module body ended. *)
Definition exit_code_of (r : Result Handler) : Z :=
  match r with
  | Ok _ _ => 0
  | Raise _ _ => 1
  end.

(** The text of the [UnicodeDecodeError] of the sample runs. *)
Definition decode_error : string :=
  "'utf-8' codec can't decode byte 0xff in position 3: invalid start byte".

(** An environment in which every child prints a line, then bytes that
    do not decode, and exits with status [code]. *)
Definition undecodable_env (code : Z) : Env := {|
  env_writable := fun _ => true;
  env_open_error := fun path => "[Errno 13] Permission denied: " +++ Text.repr_str path;
  env_popen := fun _ _ =>
    Ran [Line ("ok" +++ String (ascii_of_nat 10) ""); Raises decode_error] [] code;
  env_signals := fun _ => None;
  env_repr := Text.repr_list;
  env_elapsed := fun _ => "0.02"
|}.

(** The initial state, in a working directory that exists or was
    removed. *)
Definition initial_state_in (cwd : bool) (cfg : Config) : State :=
  set_cwd_exists cwd (initial_state cfg).

(** * Properties *)

(** ** Text *)

Lemma append_assoc (a b c : string) : (a +++ b) +++ c = a +++ b +++ c.
Proof. induction a as [|x a IH]; simpl; [reflexivity | now rewrite IH]. Qed.

Lemma occurs_in_here (pre needle post : string) :
  Text.occurs_in needle (pre +++ needle +++ post).
Proof. now exists pre, post. Qed.

Lemma occurs_in_left (a b needle : string) :
  Text.occurs_in needle a -> Text.occurs_in needle (a +++ b).
Proof.
  intros (pre & post & ->). exists pre, (post +++ b).
  now rewrite !append_assoc.
Qed.

Lemma occurs_in_right (a b needle : string) :
  Text.occurs_in needle b -> Text.occurs_in needle (a +++ b).
Proof.
  intros (pre & post & ->). exists (a +++ pre), post.
  now rewrite !append_assoc.
Qed.

(** ** The monad *)

Lemma bind_ok {A B} (c : M A) (k : A -> M B) st a st1 :
  c st = Ok a st1 -> bind c k st = k a st1.
Proof. unfold bind. now intros ->. Qed.

(** ** The logger *)

Section LoggerFacts.

Variable env : Env.

Lemma log_run l msg st : Logging.log env l msg st = Ok tt (log_state env l msg st).
Proof. unfold Logging.log, log_state. now destruct (Logging.isEnabledFor l st). Qed.

Lemma isEnabledFor_level l st st' :
  logger_level st' = logger_level st ->
  Logging.isEnabledFor l st' = Logging.isEnabledFor l st.
Proof.
  unfold Logging.isEnabledFor, Logging.getEffectiveLevel. now intros ->.
Qed.

Lemma accepted_level st st' recs :
  logger_level st' = logger_level st -> accepted st' recs = accepted st recs.
Proof.
  intros H. unfold accepted. apply filter_ext. intros r.
  now apply isEnabledFor_level.
Qed.

Lemma accepted_app st r1 r2 : accepted st (r1 ++ r2) = accepted st r1 ++ accepted st r2.
Proof. apply filter_app. Qed.

Lemma untouched_refl st : untouched st st.
Proof. repeat split. Qed.

Lemma untouched_trans a b c : untouched a b -> untouched b c -> untouched a c.
Proof.
  unfold untouched. intros (?&?&?&?&?&?) (?&?&?&?&?&?).
  repeat split; congruence.
Qed.

Lemma emit_untouched h r st : untouched st (Logging.emit env h r st).
Proof.
  unfold Logging.emit. destruct (h_sink h); [|repeat split].
  destruct (Logging.stream_is_open h st); [repeat split|].
  destruct (env_writable env filename); repeat split.
Qed.

Lemma call_each_untouched hs r : forall st, untouched st (Logging.call_each env hs r st).
Proof.
  induction hs as [|h hs IH]; intros st; simpl; [apply untouched_refl|].
  eapply untouched_trans; [|apply IH].
  destruct (h_level h <=? levelno (levelname r))%Z;
    [apply emit_untouched | apply untouched_refl].
Qed.

Lemma callHandlers_untouched r st : untouched st (Logging.callHandlers env r st).
Proof.
  unfold Logging.callHandlers. destruct (logger_handlers st) eqn:E.
  - destruct (levelno WARNING <=? levelno (levelname r))%Z; repeat split.
  - apply call_each_untouched.
Qed.

Lemma effect_refl st : effect st st [] [] [].
Proof. unfold effect. simpl. now rewrite !app_nil_r. Qed.

Lemma effect_trans a b c r1 r2 c1 c2 x1 x2 :
  effect a b r1 c1 x1 -> effect b c r2 c2 x2 ->
  effect a c (r1 ++ r2) (c1 ++ c2) (x1 ++ x2).
Proof.
  unfold effect. intros (L1&H1&A1&P1&E1) (L2&H2&A2&P2&E2).
  rewrite (accepted_level _ _ _ L1) in E2.
  repeat split; try congruence.
  - rewrite A2, A1. now rewrite app_assoc.
  - rewrite P2, P1. now rewrite app_assoc.
  - rewrite E2, E1, accepted_app. now rewrite app_assoc.
Qed.

Lemma effect_log l msg st : effect st (log_state env l msg st) [mkRecord l msg] [] [].
Proof.
  unfold log_state, effect, accepted. simpl.
  destruct (Logging.isEnabledFor l st) eqn:E.
  - destruct (callHandlers_untouched (mkRecord l msg)
                (set_emitted (emitted st ++ [mkRecord l msg]) st))
      as (HA&HL&HH&_&HE&HP).
    simpl in *. rewrite HA, HL, HH, HE, HP. now rewrite !app_nil_r.
  - now rewrite !app_nil_r.
Qed.

Lemma effect_popen c st :
  effect st (set_popen_calls (popen_calls st ++ [c]) st) [] [c] [].
Proof. unfold effect. simpl. now rewrite !app_nil_r. Qed.

Lemma effect_extend more st : effect st (set_ARGS (ARGS st ++ more) st) [] [] more.
Proof. unfold effect. simpl. now rewrite !app_nil_r. Qed.

Lemma effect_log_all recs : forall st, effect st (log_all env recs st) recs [] [].
Proof.
  induction recs as [|[l m] recs IH]; intros st; [apply effect_refl|].
  simpl. change (mkRecord l m :: recs) with ([mkRecord l m] ++ recs).
  change (@nil (list string)) with (@nil (list string) ++ []).
  change (@nil string) with (@nil string ++ []).
  eapply effect_trans; [apply effect_log | apply IH].
Qed.

Lemma for_each_line_debug (f : string -> string) stream : forall st,
  Subprocess.for_each_line stream (fun x => Logging.debug env (f x)) st
  = match read_error stream with
    | Some text =>
        Raise (OtherException text)
          (log_all env (map (fun x => mkRecord DEBUG (f x)) (lines_read stream)) st)
    | None =>
        Ok tt (log_all env (map (fun x => mkRecord DEBUG (f x)) (lines_read stream)) st)
    end.
Proof.
  induction stream as [|[line|text] rest IH]; intros st; [reflexivity| |reflexivity].
  cbn [Subprocess.for_each_line read_error lines_read].
  destruct (String.eqb line ""); [reflexivity|].
  rewrite (bind_ok _ _ _ _ _ (log_run DEBUG (f line) st)). apply IH.
Qed.

Lemma lines_read_Line lines : lines_read (map Line lines) = Subprocess.iter_readline lines.
Proof.
  induction lines as [|line rest IH]; [reflexivity|].
  simpl. destruct (String.eqb line ""); [reflexivity|]. now rewrite IH.
Qed.

Lemma read_error_Line lines : read_error (map Line lines) = None.
Proof.
  induction lines as [|line rest IH]; [reflexivity|].
  simpl. now destruct (String.eqb line "").
Qed.

(** The records of a child whose streams are read to their end. *)
Lemma outcome_records_Exited source destination command out err code :
  outcome_records env source destination command (Exited out err code)
  = debug_records out ++ debug_records err
      ++ (if (code =? 0)%Z then [completed_record source destination]
          else [failed_record env source destination code command;
                mkRecord ERROR "stdout: None"; mkRecord ERROR "stderr: None"]).
Proof.
  unfold Exited, outcome_records, exit_records, line_records, debug_records.
  now rewrite !read_error_Line, !lines_read_Line.
Qed.

End LoggerFacts.


(** ** [rclone_sync] *)

Section SyncFacts.

Variable env : Env.

Lemma effect_step st st1 st2 r1 r2 c1 c2 x1 x2 r c x :
  effect st st1 r1 c1 x1 -> effect st1 st2 r2 c2 x2 ->
  r = r1 ++ r2 -> c = c1 ++ c2 -> x = x1 ++ x2 ->
  effect st st2 r c x.
Proof. intros H1 H2 -> -> ->. eapply effect_trans; eassumption. Qed.

Lemma effect_popen_calls st st' r c x :
  effect st st' r c x -> popen_calls st' = popen_calls st ++ c.
Proof. now intros (_&_&_&H&_). Qed.

Lemma log_all_app r1 r2 st : log_all env (r1 ++ r2) st = log_all env r2 (log_all env r1 st).
Proof. apply fold_left_app. Qed.

Lemma preserved_log_all I recs :
  preserved env I -> forall st, I st -> I (log_all env recs st).
Proof.
  intros (Hlog & _). induction recs as [|r recs IH]; intros st H; [exact H|].
  simpl. apply IH, Hlog, H.
Qed.

(** A call of [rclone_sync] returns, whatever the child does. *)
Lemma rclone_sync_run source destination args st :
  rclone_sync env source destination args st
  = Ok tt (sync_state env source destination args st).
Proof.
  unfold rclone_sync, sync_state, Logging.info, Logging.error.
  change (match args with
          | Some a => ["rclone"; "sync"; source; destination] ++ a
          | None => ["rclone"; "sync"; source; destination]
          end) with (sync_command source destination args).
  set (command := sync_command source destination args).
  rewrite (bind_ok _ _ _ _ _ (log_run env INFO _ st)).
  set (st1 := log_state env INFO ("Running command: " +++ Text.join " " command) st).
  assert (P1 : popen_calls st1 = popen_calls st)
    by exact (eq_trans (effect_popen_calls _ _ _ _ _ (effect_log env INFO _ st))
                       (app_nil_r _)).
  unfold try_except, bind at 1, Subprocess.Popen. rewrite P1.
  set (st2 := set_popen_calls (popen_calls st ++ [command]) st1).
  unfold outcome_records.
  destruct (env_popen env (List.length (popen_calls st)) command) as [text|out err code].
  - cbn beta iota. cbn [Subprocess.str_exn]. now rewrite log_run.
  - cbn [Subprocess.stdout Subprocess.stderr Subprocess.wait Subprocess.returncode_of].
    unfold bind, ret, raise, line_records. cbn beta iota.
    rewrite (for_each_line_debug env Text.strip out st2).
    destruct (read_error out) as [text|]; cbn beta iota.
    { cbn [Subprocess.str_exn]. now rewrite log_run, log_all_app. }
    rewrite (for_each_line_debug env Text.strip err).
    destruct (read_error err) as [text|]; cbn beta iota.
    { cbn [Subprocess.str_exn]. now rewrite log_run, !log_all_app. }
    unfold exit_records.
    destruct (code =? 0)%Z eqn:Ecode; cbn [negb]; cbn beta iota;
      repeat (rewrite log_run; cbn beta iota); now rewrite !log_all_app.
Qed.

Lemma sync_state_effect source destination args st :
  let command := sync_command source destination args in
  effect st (sync_state env source destination args st)
    (sync_records env source destination command
       (env_popen env (List.length (popen_calls st)) command))
    [command] [].
Proof.
  intros command. unfold sync_state, sync_records. fold command.
  set (st1 := log_state env INFO _ st).
  assert (E1 : effect st st1 [running_record command] [] []) by apply effect_log.
  assert (P1 : popen_calls st1 = popen_calls st)
    by (rewrite (effect_popen_calls _ _ _ _ _ E1); apply app_nil_r).
  eapply effect_step; [exact E1| |reflexivity..].
  eapply effect_step with (r1 := []) (c1 := [command]) (x1 := []);
    [|apply effect_log_all|reflexivity..].
  rewrite <- P1. apply effect_popen.
Qed.

Lemma sync_state_preserved I source destination args st :
  preserved env I -> I st -> I (sync_state env source destination args st).
Proof.
  intros HI H. unfold sync_state. apply preserved_log_all; [exact HI|].
  destruct HI as (Hlog & Hpopen & _). apply Hpopen, Hlog, H.
Qed.

End SyncFacts.


(** ** [main] *)

Section MainFacts.

Variable env : Env.
Variable cfg : Config.

Lemma main_loop_run items : forall st,
  main_loop env cfg items st = Ok tt (loop_state env cfg items st).
Proof.
  induction items as [|[source destination] rest IH]; intros st; [reflexivity|].
  cbn [main_loop loop_state]. unfold iter_state, Logging.info.
  destruct (String.eqb source (HOME_DIR cfg));
    unfold bind at 1, ARGS_extend, modify, ret; cbn beta iota;
    rewrite (bind_ok _ _ _ _ _ (log_run env INFO _ _));
    unfold bind at 1, get; cbn beta iota;
    rewrite (bind_ok _ _ _ _ _ (rclone_sync_run env _ _ _ _));
    apply IH.
Qed.

Lemma main_run st : main env cfg st = Ok tt (main_state env cfg st).
Proof.
  unfold main, main_state, Logging.info.
  rewrite (bind_ok _ _ _ _ _ (main_loop_run _ st)).
  unfold bind, get. apply log_run.
Qed.

Lemma iter_state_shape source destination st :
  let st' := iter_state env cfg source destination st in
  ARGS st' = args_for cfg (ARGS st) source /\
  popen_calls st' = popen_calls st
                      ++ [sync_command source destination (Some (args_for cfg (ARGS st) source))].
Proof.
  unfold iter_state, args_for.
  set (st1 := if String.eqb source (HOME_DIR cfg)
              then set_ARGS (ARGS st ++ HOME_ARGS cfg) st else st).
  assert (H1 : ARGS st1 = (if String.eqb source (HOME_DIR cfg)
                           then ARGS st ++ HOME_ARGS cfg else ARGS st)
               /\ popen_calls st1 = popen_calls st)
    by (subst st1; destruct (String.eqb source (HOME_DIR cfg)); now split).
  destruct H1 as (A1 & P1).
  set (st2 := log_state env INFO _ st1).
  destruct (effect_log env INFO ("Syncing " +++ source +++ " to " +++ destination) st1)
    as (_ & _ & A2 & P2 & _).
  fold st2 in A2, P2. rewrite app_nil_r in A2, P2.
  destruct (sync_state_effect env source destination (Some (ARGS st2)) st2)
    as (_ & _ & A3 & P3 & _).
  rewrite app_nil_r in A3. cbv zeta.
  rewrite A3, P3, A2, P2, A1, P1. now split.
Qed.

Lemma loop_state_shape items : forall st,
  ARGS (loop_state env cfg items st) = loop_args cfg (ARGS st) items /\
  popen_calls (loop_state env cfg items st)
  = popen_calls st ++ loop_commands cfg (ARGS st) items.
Proof.
  induction items as [|[source destination] rest IH]; intros st.
  - simpl. now rewrite app_nil_r.
  - cbn [loop_state loop_args loop_commands].
    destruct (iter_state_shape source destination st) as (A & P).
    destruct (IH (iter_state env cfg source destination st)) as (A' & P').
    rewrite A', P', A, P. split; [reflexivity|]. now rewrite <- app_assoc.
Qed.

Lemma loop_state_preserved I items :
  preserved env I -> forall st, I st -> I (loop_state env cfg items st).
Proof.
  intros HI. induction items as [|[source destination] rest IH]; intros st H; [exact H|].
  cbn [loop_state]. apply IH. unfold iter_state.
  apply sync_state_preserved; [exact HI|].
  destruct HI as (Hlog & _ & Hargs). apply Hlog.
  destruct (String.eqb source (HOME_DIR cfg)); [apply Hargs|]; exact H.
Qed.

Lemma main_state_preserved I st :
  preserved env I -> I st -> I (main_state env cfg st).
Proof.
  intros HI H. unfold main_state. destruct HI as (Hlog & HI').
  apply Hlog, loop_state_preserved; [split; assumption|exact H].
Qed.

Lemma main_state_shape st :
  ARGS (main_state env cfg st) = loop_args cfg (ARGS st) (BACKUP_LOCATIONS cfg) /\
  popen_calls (main_state env cfg st)
  = popen_calls st ++ loop_commands cfg (ARGS st) (BACKUP_LOCATIONS cfg).
Proof.
  unfold main_state.
  destruct (loop_state_shape (BACKUP_LOCATIONS cfg) st) as (A & P).
  set (st1 := loop_state env cfg (BACKUP_LOCATIONS cfg) st) in *.
  destruct (effect_log env INFO
              ("Backup process completed in "
                 +++ env_elapsed env (List.length (popen_calls st1)) +++ " minutes") st1)
    as (_ & _ & A2 & P2 & _).
  rewrite app_nil_r in A2, P2. rewrite A2, P2. now split.
Qed.

(** The loop issues one command per pair, in the order of the pairs. *)
Lemma loop_commands_pairs items : forall args,
  Forall2 (fun pair command => exists a, command = pair_command a pair)
          items (loop_commands cfg args items).
Proof.
  induction items as [|[source destination] rest IH]; intros args; simpl.
  - constructor.
  - constructor; [|apply IH]. now exists (args_for cfg args source).
Qed.

(** Pairs whose source is not the home marker leave [ARGS] alone. *)
Lemma loop_no_home items : forall args,
  (forall pair, In pair items -> fst pair <> HOME_DIR cfg) ->
  loop_args cfg args items = args /\
  loop_commands cfg args items = map (pair_command args) items.
Proof.
  induction items as [|[source destination] rest IH]; intros args H; [now split|].
  cbn [loop_args loop_commands map].
  assert (E : args_for cfg args source = args).
  { unfold args_for. destruct (String.eqb_spec source (HOME_DIR cfg)) as [->|]; [|reflexivity].
    exfalso. now apply (H (HOME_DIR cfg, destination)); [left|]. }
  rewrite E. destruct (IH args) as (A & C).
  - intros pair Hin. apply H. now right.
  - rewrite A, C. now split.
Qed.

Lemma loop_app pre post : forall args,
  loop_args cfg args (pre ++ post) = loop_args cfg (loop_args cfg args pre) post /\
  loop_commands cfg args (pre ++ post)
  = loop_commands cfg args pre ++ loop_commands cfg (loop_args cfg args pre) post.
Proof.
  induction pre as [|[source destination] pre IH]; intros args; [now split|].
  cbn [app loop_args loop_commands].
  destruct (IH (args_for cfg args source)) as (A & C). rewrite A, C. now split.
Qed.

(** The loop over pairs of which exactly one, the home pair, has the
    home marker as its source. *)
Lemma loop_with_home pre dh post args :
  (forall pair, In pair pre -> fst pair <> HOME_DIR cfg) ->
  (forall pair, In pair post -> fst pair <> HOME_DIR cfg) ->
  let items := pre ++ (HOME_DIR cfg, dh) :: post in
  loop_args cfg args items = args ++ HOME_ARGS cfg /\
  loop_commands cfg args items
  = map (pair_command args) pre
      ++ map (pair_command (args ++ HOME_ARGS cfg)) ((HOME_DIR cfg, dh) :: post).
Proof.
  intros Hpre Hpost items. subst items.
  destruct (loop_app pre ((HOME_DIR cfg, dh) :: post) args) as (A & C).
  destruct (loop_no_home pre args Hpre) as (A1 & C1).
  rewrite A, C, A1, C1. cbn [loop_args loop_commands map].
  assert (E : args_for cfg args (HOME_DIR cfg) = args ++ HOME_ARGS cfg)
    by (unfold args_for; now rewrite String.eqb_refl).
  rewrite E.
  destruct (loop_no_home post (args ++ HOME_ARGS cfg) Hpost) as (A2 & C2).
  rewrite A2, C2. now split.
Qed.

End MainFacts.


(** ** The driver: claims C1, C3, C8 and C10 *)

Section DriverClaims.

Variable env : Env.
Variable cfg : Config.

Implicit Types (pre post : list (string * string)) (dh : string) (st : State).

(** In a [dict] the home marker is the key of one item at most. *)
Lemma home_once pre dh post :
  NoDup (map fst (pre ++ (HOME_DIR cfg, dh) :: post)) ->
  (forall pair, In pair pre -> fst pair <> HOME_DIR cfg) /\
  (forall pair, In pair post -> fst pair <> HOME_DIR cfg).
Proof.
  rewrite map_app. simpl. intros H.
  apply NoDup_remove_2 in H.
  split; intros pair Hin E; apply H, in_or_app; [left|right];
    rewrite <- E; now apply in_map.
Qed.

(** One run of [main] over items that hold the home pair. *)
Lemma main_with_home st pre dh post :
  BACKUP_LOCATIONS cfg = pre ++ (HOME_DIR cfg, dh) :: post ->
  NoDup (map fst (BACKUP_LOCATIONS cfg)) ->
  main env cfg st = Ok tt (main_state env cfg st) /\
  ARGS (main_state env cfg st) = ARGS st ++ HOME_ARGS cfg /\
  popen_calls (main_state env cfg st)
  = popen_calls st
      ++ map (pair_command (ARGS st)) pre
      ++ map (pair_command (ARGS st ++ HOME_ARGS cfg)) ((HOME_DIR cfg, dh) :: post).
Proof.
  intros Hitems Hdup. split; [apply main_run|].
  destruct (main_state_shape env cfg st) as (A & P). rewrite A, P, Hitems.
  rewrite Hitems in Hdup. destruct (home_once _ _ _ Hdup) as (Hpre & Hpost).
  destruct (loop_with_home cfg pre dh post (ARGS st) Hpre Hpost) as (A' & C').
  rewrite A', C'. now split.
Qed.

Lemma console_output_run console_logging enabled st :
  console_output env console_logging enabled st
  = Ok tt (toggle_state env console_logging enabled st).
Proof.
  unfold console_output, toggle_state, Logging.info, Logging.addHandler,
    Logging.removeHandler, modify.
  destruct enabled; unfold bind; cbn beta iota; apply log_run.
Qed.

Lemma toggle_state_ARGS console_logging enabled st :
  ARGS (toggle_state env console_logging enabled st) = ARGS st.
Proof.
  unfold toggle_state.
  destruct enabled;
    match goal with
    | |- ARGS (log_state env INFO ?m ?s) = _ =>
        destruct (effect_log env INFO m s) as (_ & _ & A & _);
        rewrite A, app_nil_r
    end;
    now destruct (existsb (same_handler console_logging) (logger_handlers st)).
Qed.

Lemma setup_logging_run :
  setup_logging env (LOG_FILE cfg) (LOG_SIZE cfg) (LOG_BACKUPS cfg) (LOG_LEVEL cfg)
    (initial_state cfg)
  = Ok ("rclone_backup", console_handler cfg) (setup_state cfg).
Proof. reflexivity. Qed.

Lemma module_body_run :
  module_body env cfg true (initial_state cfg)
  = Ok (console_handler cfg)
       (main_state env cfg
          (toggle_state env (console_handler cfg) (CONSOLE_OUTPUT cfg) (setup_state cfg))).
Proof.
  unfold module_body.
  rewrite (bind_ok _ _ _ _ _ setup_logging_run). cbn [snd].
  rewrite (bind_ok _ _ _ _ _ (console_output_run _ _ _)).
  now rewrite (bind_ok _ _ _ _ _ (main_run env cfg _)).
Qed.

(** C1.  When the loop of [main] reaches the pair whose source is
    [HOME_DIR], it appends [HOME_ARGS] to the list [ARGS] itself; the pairs
    before it are run with the list as it was, the home pair and every
    pair after it with the extended list.  For the items [A, HOME, B] the
    command of [B] carries the home exclusion flags. *)
Theorem home_args_reach_later_pairs st pre dh post :
  BACKUP_LOCATIONS cfg = pre ++ (HOME_DIR cfg, dh) :: post ->
  NoDup (map fst (BACKUP_LOCATIONS cfg)) ->
  exists st',
    main env cfg st = Ok tt st' /\
    ARGS st' = ARGS st ++ HOME_ARGS cfg /\
    popen_calls st'
    = popen_calls st
        ++ map (fun pair => sync_command (fst pair) (snd pair) (Some (ARGS st))) pre
        ++ map (fun pair => sync_command (fst pair) (snd pair)
                              (Some (ARGS st ++ HOME_ARGS cfg)))
               ((HOME_DIR cfg, dh) :: post).
Proof.
  intros Hitems Hdup. exists (main_state env cfg st).
  exact (main_with_home st pre dh post Hitems Hdup).
Qed.

(** C3.  [main] calls [rclone_sync] once per configured pair, in the
    order of the configuration, whatever the children do: the run starts
    one child per pair, the n-th one for the n-th pair, also when earlier
    ones failed to start or exited with a non-zero status. *)
Theorem one_sync_per_pair st :
  exists st' commands,
    main env cfg st = Ok tt st' /\
    popen_calls st' = popen_calls st ++ commands /\
    Forall2 (fun pair command =>
               exists args, command = sync_command (fst pair) (snd pair) (Some args))
            (BACKUP_LOCATIONS cfg) commands.
Proof.
  exists (main_state env cfg st), (loop_commands cfg (ARGS st) (BACKUP_LOCATIONS cfg)).
  split; [apply main_run|]. split; [apply main_state_shape|].
  apply loop_commands_pairs.
Qed.

(** C8.  [main] returns normally from every state and environment, with
    no value ([None]), after it has started one child per configured
    pair; run as a script, the module ends with exit code 0, whatever
    the children did. *)
Theorem main_always_completes :
  (forall st, exists st',
      main env cfg st = Ok tt st' /\
      List.length (popen_calls st')
      = List.length (popen_calls st) + List.length (BACKUP_LOCATIONS cfg)) /\
  exit_code env cfg = 0%Z.
Proof.
  split.
  - intros st. exists (main_state env cfg st). split; [apply main_run|].
    destruct (main_state_shape env cfg st) as (_ & P). rewrite P, length_app.
    f_equal. symmetry.
    exact (Forall2_length (loop_commands_pairs cfg (BACKUP_LOCATIONS cfg) (ARGS st))).
  - unfold exit_code. now rewrite module_body_run.
Qed.

(** C10.  A run of [main] that meets the home pair leaves [ARGS] as it
    found it with [HOME_ARGS] appended, and nothing takes the flags off
    again: [rclone_sync] and [console_output] leave [ARGS] alone.  A
    second run therefore passes the home flags to every pair from the
    first one on, and appends [HOME_ARGS] once more at the home pair. *)
Theorem main_twice st pre dh post :
  BACKUP_LOCATIONS cfg = pre ++ (HOME_DIR cfg, dh) :: post ->
  NoDup (map fst (BACKUP_LOCATIONS cfg)) ->
  exists st1 st2,
    main env cfg st = Ok tt st1 /\
    ARGS st1 = ARGS st ++ HOME_ARGS cfg /\
    (forall source destination args, exists st',
        rclone_sync env source destination args st1 = Ok tt st' /\ ARGS st' = ARGS st1) /\
    (forall console_logging enabled, exists st',
        console_output env console_logging enabled st1 = Ok tt st' /\ ARGS st' = ARGS st1) /\
    main env cfg st1 = Ok tt st2 /\
    popen_calls st2
    = popen_calls st1
        ++ map (fun pair => sync_command (fst pair) (snd pair)
                              (Some (ARGS st ++ HOME_ARGS cfg))) pre
        ++ map (fun pair => sync_command (fst pair) (snd pair)
                              (Some (ARGS st ++ HOME_ARGS cfg ++ HOME_ARGS cfg)))
               ((HOME_DIR cfg, dh) :: post) /\
    ARGS st2 = ARGS st ++ HOME_ARGS cfg ++ HOME_ARGS cfg.
Proof.
  intros Hitems Hdup.
  destruct (main_with_home st pre dh post Hitems Hdup) as (R1 & A1 & _).
  set (st1 := main_state env cfg st) in *.
  destruct (main_with_home st1 pre dh post Hitems Hdup) as (R2 & A2 & P2).
  exists st1, (main_state env cfg st1).
  rewrite A1, <- app_assoc in A2, P2.
  repeat split; try assumption.
  - intros source destination args. eexists. split; [apply rclone_sync_run|].
    destruct (sync_state_effect env source destination args st1) as (_ & _ & A & _).
    now rewrite A, app_nil_r.
  - intros console_logging enabled. eexists. split; [apply console_output_run|].
    apply toggle_state_ARGS.
Qed.

End DriverClaims.

(** ** The orchestrator: claims C4 to C7 *)

Section SyncClaims.

Variable env : Env.

Implicit Types (st : State) (source destination text : string)
  (args : option (list string)) (out err : list string) (code : Z).

Lemma enabled_from_debug st l :
  Logging.isEnabledFor DEBUG st = true -> Logging.isEnabledFor l st = true.
Proof.
  unfold Logging.isEnabledFor. intros H.
  apply Z.leb_le in H. apply Z.leb_le.
  destruct l; cbn [levelno] in *; lia.
Qed.

Lemma accepted_all st recs :
  Logging.isEnabledFor DEBUG st = true -> accepted st recs = recs.
Proof.
  intros H. unfold accepted. induction recs as [|r recs IH]; [reflexivity|].
  simpl. now rewrite (enabled_from_debug st (levelname r) H), IH.
Qed.

Lemma accepted_one st l msg :
  Logging.isEnabledFor l st = true -> accepted st [mkRecord l msg] = [mkRecord l msg].
Proof. intros H. unfold accepted. simpl. now rewrite H. Qed.

Lemma accepted_errors st (msgs : list string) :
  Logging.isEnabledFor ERROR st = true ->
  accepted st (map (mkRecord ERROR) msgs) = map (mkRecord ERROR) msgs.
Proof.
  intros H. unfold accepted. induction msgs as [|m msgs IH]; [reflexivity|].
  simpl. now rewrite H, IH.
Qed.

Lemma accepted_In st recs r : In r (accepted st recs) -> In r recs.
Proof. unfold accepted. intros H. now apply filter_In in H. Qed.

Lemma iter_readline_all stream :
  Forall (fun line => line <> "") stream -> Subprocess.iter_readline stream = stream.
Proof.
  induction 1 as [|line rest Hline _ IH]; [reflexivity|].
  simpl. destruct (String.eqb_spec line ""); [contradiction|]. now rewrite IH.
Qed.

(** The records of a call of [rclone_sync], as the logger kept them. *)
Lemma rclone_sync_emitted st source destination args :
  let command := sync_command source destination args in
  emitted (sync_state env source destination args st)
  = emitted st
      ++ accepted st [running_record command]
      ++ accepted st
           (outcome_records env source destination command
              (env_popen env (List.length (popen_calls st)) command)).
Proof.
  intros command.
  destruct (sync_state_effect env source destination args st) as (_ & _ & _ & _ & E).
  rewrite E. unfold sync_records. fold command.
  change (running_record command :: ?l) with ([running_record command] ++ l).
  now rewrite accepted_app.
Qed.

Lemma running_is_not_completed command source destination :
  running_record command <> completed_record source destination.
Proof. unfold running_record, completed_record. simpl. discriminate. Qed.

Lemma debug_is_not_completed stream source destination :
  ~ In (completed_record source destination) (debug_records stream).
Proof.
  unfold debug_records, completed_record. intros H.
  apply in_map_iff in H. destruct H as (line & H & _). discriminate.
Qed.

Lemma status_occurs code command :
  Text.occurs_in (Text.str_int (Z.abs code))
    (Subprocess.str_CalledProcessError env code command).
Proof.
  unfold Subprocess.str_CalledProcessError.
  destruct (code <? 0)%Z eqn:E.
  - apply Z.ltb_lt in E. rewrite (Z.abs_neq code) by lia.
    destruct (env_signals env (- code)%Z) as [name|].
    + unfold Subprocess.repr_signal.
      do 3 apply occurs_in_right. apply occurs_in_left.
      do 3 apply occurs_in_right. apply (occurs_in_here "" _ ">").
    + do 3 apply occurs_in_right. apply (occurs_in_here "" _ ".").
  - apply Z.ltb_ge in E. rewrite (Z.abs_eq code) by lia.
    do 3 apply occurs_in_right. apply (occurs_in_here "" _ ".").
Qed.

(** C4, as the script has it.  When both streams of the child of a call
    of [rclone_sync] are read to their end and the child exits with status
    0, the call logs, as its last record, the info record
    [Sync completed for <source> to <destination>]. *)
Theorem success_is_logged st source destination args out err :
  env_popen env (List.length (popen_calls st)) (sync_command source destination args)
  = Exited out err 0 ->
  Logging.isEnabledFor INFO st = true ->
  exists st' earlier,
    rclone_sync env source destination args st = Ok tt st' /\
    emitted st'
    = emitted st ++ earlier
        ++ [mkRecord INFO ("Sync completed for " +++ source +++ " to " +++ destination)].
Proof.
  intros Hchild Hinfo.
  exists (sync_state env source destination args st).
  exists (accepted st [running_record (sync_command source destination args)]
            ++ accepted st (debug_records out ++ debug_records err)).
  split; [apply rclone_sync_run|].
  rewrite rclone_sync_emitted, Hchild, outcome_records_Exited.
  cbn [Z.eqb]. rewrite app_assoc, !accepted_app.
  unfold completed_record. rewrite (accepted_one st INFO _ Hinfo).
  now rewrite <- !app_assoc.
Qed.

(** C5, as the script has it.  When both streams of the child of a call
    of [rclone_sync] are read to their end and the child exits with a
    status other than 0, the call logs an error record that names the
    source, the destination and the status (for a child killed by a
    signal, the number of the signal), logs no [Sync completed] info
    record, and returns normally, so that what follows the call is run. *)
Theorem failure_is_logged st source destination args out err code :
  env_popen env (List.length (popen_calls st)) (sync_command source destination args)
  = Exited out err code ->
  code <> 0%Z ->
  Logging.isEnabledFor ERROR st = true ->
  exists st' earlier report,
    rclone_sync env source destination args st = Ok tt st' /\
    (forall next : M unit,
        (rclone_sync env source destination args ;; next) st = next st') /\
    emitted st'
    = emitted st ++ earlier
        ++ [mkRecord ERROR report;
            mkRecord ERROR "stdout: None"; mkRecord ERROR "stderr: None"] /\
    report = "Error syncing " +++ source +++ " to " +++ destination +++ ": "
               +++ Subprocess.str_CalledProcessError env code
                     (sync_command source destination args) /\
    Text.occurs_in source report /\
    Text.occurs_in destination report /\
    Text.occurs_in (Text.str_int (Z.abs code)) report /\
    ~ In (mkRecord INFO ("Sync completed for " +++ source +++ " to " +++ destination))
         (earlier ++ [mkRecord ERROR report;
                      mkRecord ERROR "stdout: None"; mkRecord ERROR "stderr: None"]).
Proof.
  intros Hchild Hcode Herror.
  set (command := sync_command source destination args) in *.
  exists (sync_state env source destination args st).
  exists (accepted st [running_record command]
            ++ accepted st (debug_records out ++ debug_records err)).
  eexists. split; [apply rclone_sync_run|].
  split; [intros next;
          exact (bind_ok _ (fun _ => next) _ _ _
                   (rclone_sync_run env source destination args st))|].
  split; [|split; [reflexivity|]].
  - rewrite rclone_sync_emitted. fold command. rewrite Hchild, outcome_records_Exited.
    destruct (Z.eqb_spec code 0) as [|_]; [contradiction|].
    rewrite app_assoc, !accepted_app.
    change [failed_record env source destination code command;
            mkRecord ERROR "stdout: None"; mkRecord ERROR "stderr: None"]
      with (map (mkRecord ERROR)
              [message (failed_record env source destination code command);
               "stdout: None"; "stderr: None"]).
    rewrite (accepted_errors st _ Herror). cbn [map failed_record message].
    now rewrite <- !app_assoc.
  - split; [apply occurs_in_right, (occurs_in_here "")|].
    split; [do 3 apply occurs_in_right; apply (occurs_in_here "")|].
    split; [do 5 apply occurs_in_right; apply status_occurs|].
    intros Hin. apply in_app_or in Hin. destruct Hin as [Hin|Hin].
    + apply in_app_or in Hin. destruct Hin as [Hin|Hin]; apply accepted_In in Hin.
      * destruct Hin as [Hin|[]].
        exact (running_is_not_completed command source destination Hin).
      * apply in_app_or in Hin.
        destruct Hin as [Hin|Hin];
          exact (debug_is_not_completed _ source destination Hin).
    + simpl in Hin. destruct Hin as [Hin|[Hin|[Hin|[]]]]; discriminate.
Qed.

(** C6.  When [Popen] raises in a call of [rclone_sync], the call catches
    the exception, logs an error record that ends with the text of the
    exception, and returns normally, so that what follows the call (in
    [main], the rest of the loop) is run. *)
Theorem launch_failure_is_caught st source destination args text :
  env_popen env (List.length (popen_calls st)) (sync_command source destination args)
  = LaunchError text ->
  Logging.isEnabledFor ERROR st = true ->
  exists st' earlier,
    rclone_sync env source destination args st = Ok tt st' /\
    (forall next : M unit,
        (rclone_sync env source destination args ;; next) st = next st') /\
    emitted st'
    = emitted st ++ earlier ++ [mkRecord ERROR ("An error occurred: " +++ text)].
Proof.
  intros Hchild Herror.
  exists (sync_state env source destination args st).
  exists (accepted st [running_record (sync_command source destination args)]).
  split; [apply rclone_sync_run|].
  split; [intros next;
          exact (bind_ok _ (fun _ => next) _ _ _
                   (rclone_sync_run env source destination args st))|].
  rewrite rclone_sync_emitted, Hchild. unfold outcome_records, launch_record.
  now rewrite (accepted_one st ERROR _ Herror).
Qed.

(** C7.  In one call of [rclone_sync] whose child runs, the debug records
    are one per line of standard output, in order, followed by one per
    line of standard error, in order: every record of a line of standard
    output comes before every record of a line of standard error, and the
    records after them are not debug records. *)
Theorem stdout_before_stderr st source destination args out err code :
  env_popen env (List.length (popen_calls st)) (sync_command source destination args)
  = Exited out err code ->
  Logging.isEnabledFor DEBUG st = true ->
  Forall (fun line => line <> "") out ->
  Forall (fun line => line <> "") err ->
  exists st' later,
    rclone_sync env source destination args st = Ok tt st' /\
    emitted st'
    = emitted st
        ++ [mkRecord INFO ("Running command: "
                             +++ Text.join " " (sync_command source destination args))]
        ++ map (fun line => mkRecord DEBUG (Text.strip line)) out
        ++ map (fun line => mkRecord DEBUG (Text.strip line)) err
        ++ later /\
    Forall (fun r => levelname r <> DEBUG) later.
Proof.
  intros Hchild Hdebug Hout Herr.
  set (command := sync_command source destination args) in *.
  exists (sync_state env source destination args st).
  exists (if (code =? 0)%Z then [completed_record source destination]
          else [failed_record env source destination code command;
                mkRecord ERROR "stdout: None"; mkRecord ERROR "stderr: None"]).
  split; [apply rclone_sync_run|]. split.
  - rewrite rclone_sync_emitted. fold command. rewrite Hchild.
    rewrite outcome_records_Exited, !(accepted_all st _ Hdebug). unfold debug_records.
    now rewrite (iter_readline_all out Hout), (iter_readline_all err Herr).
  - destruct (code =? 0)%Z; repeat constructor; discriminate.
Qed.

End SyncClaims.

(** ** Logging: claims C2 and C9 *)

Section LoggingClaims.

Variable env : Env.
Variable cfg : Config.

Lemma mirrored_app a b : mirrored (a ++ b) = mirrored a ++ mirrored b.
Proof.
  induction a as [|[r|r|r] a IH]; simpl; [reflexivity| |assumption..].
  now rewrite IH.
Qed.

Lemma for_each_toggles console_logging calls : forall st,
  for_each calls (console_output env console_logging) st
  = Ok tt (toggles_state env console_logging calls st).
Proof.
  induction calls as [|enabled calls IH]; intros st; [reflexivity|].
  cbn [for_each]. rewrite (bind_ok _ _ _ _ _ (console_output_run env _ enabled st)).
  apply IH.
Qed.

Lemma toggle_state_shape enabled st :
  reachable_handlers cfg st ->
  let st' := toggle_state env (console_handler cfg) enabled st in
  logger_level st' = logger_level st /\
  logger_handlers st'
  = (if enabled then [file_handler cfg; console_handler cfg] else [file_handler cfg]) /\
  emitted st' = emitted st ++ accepted st [toggle_notice enabled].
Proof.
  intros H. unfold toggle_state, toggle_notice. cbv zeta.
  destruct enabled;
    match goal with
    | |- logger_level (log_state env INFO ?m ?s) = _ /\ _ =>
        destruct (effect_log env INFO m s) as (L & Hh & _ & _ & E);
        rewrite L, Hh, E
    end;
    rewrite (accepted_level _ st)
      by (destruct (existsb _ _); reflexivity);
    destruct H as [Hst | Hst]; rewrite Hst; simpl; repeat split;
    try exact Hst; simpl; now rewrite ?Hst.
Qed.

Lemma toggles_state_shape calls : forall st,
  reachable_handlers cfg st ->
  let st' := toggles_state env (console_handler cfg) calls st in
  logger_level st' = logger_level st /\
  reachable_handlers cfg st' /\
  emitted st' = emitted st ++ accepted st (map toggle_notice calls).
Proof.
  induction calls as [|enabled calls IH]; intros st H; cbv zeta.
  - simpl. now rewrite app_nil_r.
  - unfold toggles_state. cbn [fold_left map].
    destruct (toggle_state_shape enabled st H) as (L & Hh & E).
    set (st1 := toggle_state env (console_handler cfg) enabled st) in *.
    assert (H1 : reachable_handlers cfg st1)
      by (unfold reachable_handlers; rewrite Hh; destruct enabled; auto).
    destruct (IH st1 H1) as (L' & Hh' & E'). fold (toggles_state env (console_handler cfg) calls st1).
    rewrite L', E', E, L. split; [reflexivity|]. split; [exact Hh'|].
    rewrite (accepted_level _ _ _ L), <- app_assoc. f_equal.
    symmetry. apply (accepted_app st [toggle_notice enabled]).
Qed.

Lemma emit_mirrored h r st :
  mirrored (console (Logging.emit env h r st))
  = mirrored (console st)
      ++ match h_sink h with
         | StderrSink => [r]
         | FileSink _ _ _ => []
         end.
Proof.
  unfold Logging.emit. destruct (h_sink h) as [f mb bc|].
  - destruct (Logging.stream_is_open h st); [|destruct (env_writable env f)];
      cbn [console set_console set_log_written Logging.open_stream set_open_streams];
      rewrite ?mirrored_app; simpl; now rewrite ?app_nil_r.
  - cbn [console set_console]. now rewrite mirrored_app.
Qed.

(** With both handlers attached, each record reaches standard error
    once through the console handler. *)
Lemma log_state_mirrored l msg st :
  LOG_LEVEL cfg = levelno DEBUG ->
  logger_level st = LOG_LEVEL cfg ->
  logger_handlers st = [file_handler cfg; console_handler cfg] ->
  mirrored (console (log_state env l msg st)) = mirrored (console st) ++ [mkRecord l msg].
Proof.
  intros Hcfg Hlevel Hh. unfold log_state.
  assert (Hl : (levelno DEBUG <=? levelno l)%Z = true) by now destruct l.
  assert (En : Logging.isEnabledFor l st = true).
  { unfold Logging.isEnabledFor, Logging.getEffectiveLevel.
    rewrite Hlevel, Hcfg. exact Hl. }
  rewrite En. unfold Logging.callHandlers. cbn [logger_handlers set_emitted].
  rewrite Hh. cbn [Logging.call_each file_handler console_handler h_level levelname].
  rewrite Hcfg, Hl. rewrite !emit_mirrored. cbn [h_sink console set_emitted].
  now rewrite app_nil_r.
Qed.

(** C9.  After [setup_logging] and any calls of [console_output] of
    which the last one enables the console, the console handler is in the
    handler list of the logger once: enabling twice, or disabling and then
    enabling, does not attach it twice.  Every call logged one info
    notice, and every record logged from then on is written to the
    console once. *)
Theorem console_toggle_idempotent calls :
  LOG_LEVEL cfg = levelno DEBUG ->
  exists console_logging st0 st,
    setup_logging env (LOG_FILE cfg) (LOG_SIZE cfg) (LOG_BACKUPS cfg) (LOG_LEVEL cfg)
      (initial_state cfg) = Ok ("rclone_backup", console_logging) st0 /\
    for_each (calls ++ [true]) (console_output env console_logging) st0 = Ok tt st /\
    filter (same_handler console_logging) (logger_handlers st) = [console_logging] /\
    emitted st
    = map (fun enabled : bool =>
             mkRecord INFO (if enabled then "Console logging enabled"
                            else "Console logging disabled"))
          (calls ++ [true]) /\
    forall l msg, exists st',
      Logging.log env l msg st = Ok tt st' /\
      mirrored (console st') = mirrored (console st) ++ [mkRecord l msg].
Proof.
  intros Hcfg.
  exists (console_handler cfg), (setup_state cfg),
    (toggles_state env (console_handler cfg) (calls ++ [true]) (setup_state cfg)).
  split; [exact (setup_logging_run env cfg)|].
  split; [apply for_each_toggles|].
  assert (H0 : reachable_handlers cfg (setup_state cfg)) by now left.
  destruct (toggles_state_shape calls (setup_state cfg) H0) as (L1 & H1 & E1).
  unfold toggles_state in *. rewrite fold_left_app. cbn [fold_left].
  set (st1 := fold_left _ calls (setup_state cfg)) in *.
  destruct (toggle_state_shape true st1 H1) as (L & Hh & E).
  set (st := toggle_state env (console_handler cfg) true st1) in *.
  assert (Hdebug : forall s, logger_level s = LOG_LEVEL cfg ->
                             Logging.isEnabledFor DEBUG s = true).
  { intros s Hs. unfold Logging.isEnabledFor, Logging.getEffectiveLevel.
    now rewrite Hs, Hcfg. }
  split; [now rewrite Hh|]. split.
  - rewrite E, E1, map_app.
    rewrite (accepted_all st1), (accepted_all (setup_state cfg))
      by (apply Hdebug; first [reflexivity | exact L1]).
    reflexivity.
  - intros l msg. eexists. split; [apply log_run|].
    apply log_state_mirrored; [exact Hcfg|exact (eq_trans L L1)|exact Hh].
Qed.

End LoggingClaims.

(** ** The claims on the sample runs *)

Lemma home_args_reach_later_pairs_witness :
  exists st',
    main (sample_env true) sample_config (sample_state 0) = Ok tt st' /\
    ARGS st' = ["--verbose"; "--exclude=.*"] /\
    popen_calls st'
    = [ ["rclone"; "sync"; "/srv/a/"; "remote:a/"; "--verbose"];
        ["rclone"; "sync"; "/home/u/"; "remote:home/"; "--verbose"; "--exclude=.*"];
        ["rclone"; "sync"; "/srv/b/"; "remote:b/"; "--verbose"; "--exclude=.*"] ].
Proof.
  apply (home_args_reach_later_pairs (sample_env true) sample_config (sample_state 0)
           [("/srv/a/", "remote:a/")] "remote:home/" [("/srv/b/", "remote:b/")]).
  - reflexivity.
  - simpl. repeat constructor; simpl; intuition discriminate.
Defined.

Lemma main_twice_witness :
  exists st1 st2,
    main (sample_env true) sample_config (sample_state 0) = Ok tt st1 /\
    ARGS st1 = ["--verbose"; "--exclude=.*"] /\
    (forall source destination args, exists st',
        rclone_sync (sample_env true) source destination args st1 = Ok tt st' /\
        ARGS st' = ARGS st1) /\
    (forall console_logging enabled, exists st',
        console_output (sample_env true) console_logging enabled st1 = Ok tt st' /\
        ARGS st' = ARGS st1) /\
    main (sample_env true) sample_config st1 = Ok tt st2 /\
    popen_calls st2
    = popen_calls st1
        ++ [ ["rclone"; "sync"; "/srv/a/"; "remote:a/"; "--verbose"; "--exclude=.*"];
             ["rclone"; "sync"; "/home/u/"; "remote:home/";
              "--verbose"; "--exclude=.*"; "--exclude=.*"];
             ["rclone"; "sync"; "/srv/b/"; "remote:b/";
              "--verbose"; "--exclude=.*"; "--exclude=.*"] ] /\
    ARGS st2 = ["--verbose"; "--exclude=.*"; "--exclude=.*"].
Proof.
  apply (main_twice (sample_env true) sample_config (sample_state 0)
           [("/srv/a/", "remote:a/")] "remote:home/" [("/srv/b/", "remote:b/")]).
  - reflexivity.
  - simpl. repeat constructor; simpl; intuition discriminate.
Defined.

Lemma success_is_logged_witness :
  exists st' earlier,
    rclone_sync (sample_env true) "/srv/a/" "remote:a/" (Some ["--verbose"]) (sample_state 0)
    = Ok tt st' /\
    emitted st'
    = emitted (sample_state 0) ++ earlier
        ++ [mkRecord INFO "Sync completed for /srv/a/ to remote:a/"].
Proof.
  eapply (success_is_logged (sample_env true) (sample_state 0)
            "/srv/a/" "remote:a/" (Some ["--verbose"])).
  - reflexivity.
  - reflexivity.
Defined.

Lemma failure_is_logged_witness :
  exists st' earlier report,
    rclone_sync (sample_env true) "/srv/a/" "remote:a/" (Some ["--verbose"]) (sample_state 1)
    = Ok tt st' /\
    (forall next : M unit,
        (rclone_sync (sample_env true) "/srv/a/" "remote:a/" (Some ["--verbose"]) ;; next)
          (sample_state 1) = next st') /\
    emitted st'
    = emitted (sample_state 1) ++ earlier
        ++ [mkRecord ERROR report;
            mkRecord ERROR "stdout: None"; mkRecord ERROR "stderr: None"] /\
    report = "Error syncing /srv/a/ to remote:a/: Command '['rclone', 'sync', '/srv/a/', 'remote:a/', '--verbose']' returned non-zero exit status 1." /\
    Text.occurs_in "/srv/a/" report /\
    Text.occurs_in "remote:a/" report /\
    Text.occurs_in "1" report /\
    ~ In (mkRecord INFO "Sync completed for /srv/a/ to remote:a/")
         (earlier ++ [mkRecord ERROR report;
                      mkRecord ERROR "stdout: None"; mkRecord ERROR "stderr: None"]).
Proof.
  eapply (failure_is_logged (sample_env true) (sample_state 1)
            "/srv/a/" "remote:a/" (Some ["--verbose"]) _ _ 1%Z).
  - reflexivity.
  - lia.
  - reflexivity.
Defined.

Lemma launch_failure_is_caught_witness :
  exists st' earlier,
    rclone_sync (sample_env true) "/srv/a/" "remote:a/" None (sample_state 3) = Ok tt st' /\
    (forall next : M unit,
        (rclone_sync (sample_env true) "/srv/a/" "remote:a/" None ;; next) (sample_state 3)
        = next st') /\
    emitted st'
    = emitted (sample_state 3) ++ earlier
        ++ [mkRecord ERROR
              "An error occurred: [Errno 2] No such file or directory: 'rclone'"].
Proof.
  eapply (launch_failure_is_caught (sample_env true) (sample_state 3)
            "/srv/a/" "remote:a/" None).
  - reflexivity.
  - reflexivity.
Defined.

Lemma stdout_before_stderr_witness :
  exists st' later,
    rclone_sync (sample_env true) "/srv/a/" "remote:a/" (Some ["--verbose"]) (sample_state 0)
    = Ok tt st' /\
    emitted st'
    = emitted (sample_state 0)
        ++ [mkRecord INFO "Running command: rclone sync /srv/a/ remote:a/ --verbose"]
        ++ [mkRecord DEBUG "Transferred: 1 / 1, 100%"]
        ++ [mkRecord DEBUG "NOTICE: done"]
        ++ later /\
    Forall (fun r => levelname r <> DEBUG) later.
Proof.
  eapply (stdout_before_stderr (sample_env true) (sample_state 0)
            "/srv/a/" "remote:a/" (Some ["--verbose"])
            ["Transferred: 1 / 1, 100%" +++ String (ascii_of_nat 10) ""]
            ["NOTICE: done" +++ String (ascii_of_nat 10) ""] 0%Z).
  - reflexivity.
  - reflexivity.
  - repeat constructor; simpl; discriminate.
  - repeat constructor; simpl; discriminate.
Defined.

Lemma console_toggle_idempotent_witness :
  exists console_logging st0 st,
    setup_logging (sample_env true) "pyBackup.log" 1000 2 10 (initial_state sample_config)
    = Ok ("rclone_backup", console_logging) st0 /\
    for_each [false; true; true] (console_output (sample_env true) console_logging) st0
    = Ok tt st /\
    filter (same_handler console_logging) (logger_handlers st) = [console_logging] /\
    emitted st
    = [mkRecord INFO "Console logging disabled";
       mkRecord INFO "Console logging enabled";
       mkRecord INFO "Console logging enabled"] /\
    forall l msg, exists st',
      Logging.log (sample_env true) l msg st = Ok tt st' /\
      mirrored (console st') = mirrored (console st) ++ [mkRecord l msg].
Proof.
  apply (console_toggle_idempotent (sample_env true) sample_config [false; true]).
  reflexivity.
Defined.

(** C2, as claimed, fails: with a log file that cannot be opened,
    [setup_logging] raises nothing, and the script goes on to start its
    three children and ends with exit code 0. *)
Lemma unwritable_log_is_not_fatal :
  env_writable unwritable_env (LOG_FILE script_config) = false /\
  (forall e st,
      setup_logging unwritable_env (LOG_FILE script_config) (LOG_SIZE script_config)
        (LOG_BACKUPS script_config) (LOG_LEVEL script_config)
        (initial_state script_config) <> Raise e st) /\
  List.length
    (popen_calls
       (final_state (module_body unwritable_env script_config true
                       (initial_state script_config)))) = 3 /\
  exit_code unwritable_env script_config = 0%Z.
Proof.
  split; [reflexivity|]. split; [|split].
  - intros e st. rewrite setup_logging_run. discriminate.
  - vm_compute. reflexivity.
  - vm_compute. reflexivity.
Qed.


(** * Further properties of the script *)

(** ** [rclone_sync] *)

Section SyncExtras.

Variable env : Env.

Implicit Types (st : State) (source destination : string)
  (args : option (list string)) (out err : list string).

(** X1.  Every call of [rclone_sync] starts one child, whatever becomes
    of it: the command is [rclone sync <source> <destination>] followed by
    the arguments, its first record is the info record with that command
    joined by spaces, and the call leaves [ARGS] and the logger's level
    and handlers as they were. *)
Theorem sync_starts_one_child st source destination args :
  Logging.isEnabledFor INFO st = true ->
  exists st' later,
    rclone_sync env source destination args st = Ok tt st' /\
    popen_calls st'
    = popen_calls st
        ++ [["rclone"; "sync"; source; destination]
              ++ match args with Some a => a | None => [] end] /\
    emitted st'
    = emitted st
        ++ mkRecord INFO ("Running command: "
                            +++ Text.join " " (sync_command source destination args))
        :: later /\
    ARGS st' = ARGS st /\
    logger_level st' = logger_level st /\
    logger_handlers st' = logger_handlers st.
Proof.
  intros Hinfo.
  exists (sync_state env source destination args st). eexists.
  split; [apply rclone_sync_run|].
  destruct (sync_state_effect env source destination args st) as (L & H & A & P & _).
  rewrite app_nil_r in A.
  split; [|split; [|now repeat split]].
  - rewrite P. now destruct args.
  - rewrite rclone_sync_emitted. unfold running_record.
    rewrite (accepted_one st INFO _ Hinfo). reflexivity.
Qed.

Lemma log_state_disabled l msg st :
  Logging.isEnabledFor l st = false -> log_state env l msg st = st.
Proof. unfold log_state. now intros ->. Qed.

Lemma log_all_disabled recs : forall st,
  Forall (fun r => Logging.isEnabledFor (levelname r) st = false) recs ->
  log_all env recs st = st.
Proof.
  induction recs as [|r recs IH]; intros st H; [reflexivity|].
  inversion H as [|? ? Hr Hrest]; subst. simpl.
  rewrite (log_state_disabled _ _ _ Hr). now apply IH.
Qed.

Lemma debug_disabled st :
  Logging.isEnabledFor INFO st = false -> Logging.isEnabledFor DEBUG st = false.
Proof.
  unfold Logging.isEnabledFor. intros H.
  apply Z.leb_gt in H. apply Z.leb_gt. cbn [levelno] in *. lia.
Qed.

(** X2.  With the logger above [INFO], a call of [rclone_sync] whose
    child's streams are read to their end and whose child exits with
    status 0 leaves no trace: it starts the child and reads its output,
    and logs nothing, so that the state changes in the list of started
    children only. *)
Theorem quiet_success st source destination args out err :
  env_popen env (List.length (popen_calls st)) (sync_command source destination args)
  = Exited out err 0 ->
  Logging.isEnabledFor INFO st = false ->
  rclone_sync env source destination args st
  = Ok tt (set_popen_calls (popen_calls st ++ [sync_command source destination args]) st).
Proof.
  intros Hchild Hinfo. rewrite rclone_sync_run. unfold sync_state.
  rewrite Hchild, (log_state_disabled _ _ _ Hinfo). f_equal.
  apply log_all_disabled. rewrite outcome_records_Exited. cbn [Z.eqb].
  set (st2 := set_popen_calls _ st).
  assert (Hi : Logging.isEnabledFor INFO st2 = false) by exact Hinfo.
  assert (Hd : Logging.isEnabledFor DEBUG st2 = false) by now apply debug_disabled.
  rewrite !Forall_app. repeat split.
  - unfold debug_records. apply Forall_map, Forall_forall. intros; exact Hd.
  - unfold debug_records. apply Forall_map, Forall_forall. intros; exact Hd.
  - now constructor.
Qed.

End SyncExtras.

(** ** [main] *)

Section MainExtras.

Variable env : Env.
Variable cfg : Config.

Implicit Types (pre post : list (string * string)) (dh : string) (st : State).

(** X3.  When no configured source is the home marker, [main] never
    touches [ARGS]: every pair is run with the list as [main] found it, and
    the home flags are passed to no child. *)
Theorem main_without_home st :
  (forall pair, In pair (BACKUP_LOCATIONS cfg) -> fst pair <> HOME_DIR cfg) ->
  exists st',
    main env cfg st = Ok tt st' /\
    ARGS st' = ARGS st /\
    popen_calls st'
    = popen_calls st
        ++ map (fun pair => sync_command (fst pair) (snd pair) (Some (ARGS st)))
               (BACKUP_LOCATIONS cfg).
Proof.
  intros Hno. exists (main_state env cfg st). split; [apply main_run|].
  destruct (main_state_shape env cfg st) as (A & P).
  destruct (loop_no_home cfg (BACKUP_LOCATIONS cfg) (ARGS st) Hno) as (A' & C').
  rewrite A, P, A', C'. now split.
Qed.

(** X4.  Each run of [main] over items that hold the home pair makes
    [ARGS] longer by [HOME_ARGS]: after [n] runs [ARGS] ends with [n]
    copies of it, and [n] times the number of pairs children were
    started. *)
Theorem main_times_args n st pre dh post :
  BACKUP_LOCATIONS cfg = pre ++ (HOME_DIR cfg, dh) :: post ->
  NoDup (map fst (BACKUP_LOCATIONS cfg)) ->
  exists st',
    main_times env cfg n st = Ok tt st' /\
    ARGS st' = ARGS st ++ List.concat (repeat (HOME_ARGS cfg) n) /\
    List.length (popen_calls st')
    = List.length (popen_calls st) + n * List.length (BACKUP_LOCATIONS cfg).
Proof.
  intros Hitems Hdup. unfold main_times. revert st.
  induction n as [|n IH]; intros st.
  - exists st. simpl. rewrite app_nil_r. repeat split. lia.
  - cbn [repeat for_each]. rewrite (bind_ok _ _ _ _ _ (main_run env cfg st)).
    destruct (IH (main_state env cfg st)) as (st' & R & A & P).
    exists st'. split; [exact R|].
    destruct (main_with_home env cfg st pre dh post Hitems Hdup) as (_ & A1 & _).
    destruct (main_state_shape env cfg st) as (_ & P1).
    rewrite A, A1, P, P1, length_app.
    rewrite <- (Forall2_length
                  (loop_commands_pairs cfg (BACKUP_LOCATIONS cfg) (ARGS st))).
    split; [|lia]. cbn [repeat List.concat]. now rewrite <- app_assoc.
Qed.

End MainExtras.

(** ** The records of a run *)

Section RunExtras.

Variable env : Env.
Variable cfg : Config.

Implicit Types (pre post items : list (string * string)) (st : State)
  (source destination : string).

Lemma iter_state_emitted source destination st :
  logger_level (iter_state env cfg source destination st) = logger_level st /\
  emitted (iter_state env cfg source destination st)
  = emitted st
      ++ accepted st (iter_records env cfg (List.length (popen_calls st)) (ARGS st)
                        source destination).
Proof.
  unfold iter_state, iter_records, args_for.
  set (st1 := if String.eqb source (HOME_DIR cfg)
              then set_ARGS (ARGS st ++ HOME_ARGS cfg) st else st).
  assert (H1 : ARGS st1 = (if String.eqb source (HOME_DIR cfg)
                           then ARGS st ++ HOME_ARGS cfg else ARGS st)
               /\ popen_calls st1 = popen_calls st
               /\ logger_level st1 = logger_level st
               /\ emitted st1 = emitted st)
    by (subst st1; destruct (String.eqb source (HOME_DIR cfg)); now repeat split).
  destruct H1 as (A1 & P1 & L1 & E1).
  set (st2 := log_state env INFO _ st1).
  destruct (effect_log env INFO ("Syncing " +++ source +++ " to " +++ destination) st1)
    as (L2 & _ & A2 & P2 & E2).
  fold st2 in L2, A2, P2, E2. rewrite app_nil_r in A2, P2.
  destruct (sync_state_effect env source destination (Some (ARGS st2)) st2)
    as (L3 & _ & _ & _ & E3).
  cbv zeta in E3. rewrite P2, A2, P1, A1 in E3.
  split; [congruence|].
  rewrite A2, A1, E3, E2, E1, (accepted_level st1 st2 _ L2).
  rewrite !(accepted_level st st1 _ L1), <- app_assoc.
  f_equal. symmetry. apply (accepted_app st [_]).
Qed.

Lemma loop_state_emitted items : forall st,
  logger_level (loop_state env cfg items st) = logger_level st /\
  emitted (loop_state env cfg items st)
  = emitted st
      ++ accepted st (loop_records env cfg (List.length (popen_calls st)) (ARGS st) items).
Proof.
  induction items as [|[source destination] rest IH]; intros st.
  - simpl. now rewrite app_nil_r.
  - cbn [loop_state loop_records].
    destruct (iter_state_emitted source destination st) as (L & E).
    destruct (iter_state_shape env cfg source destination st) as (A & P).
    destruct (IH (iter_state env cfg source destination st)) as (L' & E').
    rewrite E', L', E, A, P, length_app, Nat.add_1_r. split; [exact L|].
    rewrite (accepted_level st _ _ L), <- app_assoc. f_equal.
    symmetry. apply accepted_app.
Qed.

Lemma main_state_emitted st :
  emitted (main_state env cfg st)
  = emitted st
      ++ accepted st
           (loop_records env cfg (List.length (popen_calls st)) (ARGS st)
              (BACKUP_LOCATIONS cfg))
      ++ accepted st
           [elapsed_record
              (env_elapsed env (List.length (popen_calls (main_state env cfg st))))].
Proof.
  destruct (main_state_shape env cfg st) as (_ & P).
  destruct (loop_state_shape env cfg (BACKUP_LOCATIONS cfg) st) as (_ & P1).
  rewrite P, <- P1. unfold main_state.
  destruct (loop_state_emitted (BACKUP_LOCATIONS cfg) st) as (L & E).
  set (st1 := loop_state env cfg (BACKUP_LOCATIONS cfg) st) in *.
  destruct (effect_log env INFO
              ("Backup process completed in "
                 +++ env_elapsed env (List.length (popen_calls st1)) +++ " minutes") st1)
    as (_ & _ & _ & _ & E2).
  rewrite E2, E, (accepted_level st _ _ L). unfold elapsed_record.
  now rewrite <- app_assoc.
Qed.

Lemma sync_records_not_elapsed source destination command o r text :
  In r (sync_records env source destination command o) ->
  r <> mkRecord INFO ("Backup process completed in " +++ text).
Proof.
  assert (Hlines : forall lines, In r (line_records lines) ->
                   r <> mkRecord INFO ("Backup process completed in " +++ text)).
  { unfold line_records. intros lines H. apply in_map_iff in H.
    destruct H as (line & <- & _). discriminate. }
  assert (Hlaunch : forall t, In r [launch_record t] ->
                    r <> mkRecord INFO ("Backup process completed in " +++ text)).
  { intros t [<-|[]]. discriminate. }
  unfold sync_records, outcome_records. intros [<-|H].
  - unfold running_record. simpl. discriminate.
  - destruct o as [t|out err code]; [now apply (Hlaunch t)|].
    apply in_app_or in H. destruct H as [H|H]; [now apply (Hlines _ H)|].
    destruct (read_error out) as [t|]; [now apply (Hlaunch t)|].
    apply in_app_or in H. destruct H as [H|H]; [now apply (Hlines _ H)|].
    destruct (read_error err) as [t|]; [now apply (Hlaunch t)|].
    unfold exit_records in H. destruct (code =? 0)%Z.
    + destruct H as [<-|[]]. unfold completed_record. simpl. discriminate.
    + destruct H as [<-|[<-|[<-|[]]]]; discriminate.
Qed.

Lemma loop_records_not_elapsed items r text : forall n args,
  In r (loop_records env cfg n args items) ->
  r <> mkRecord INFO ("Backup process completed in " +++ text).
Proof.
  induction items as [|[source destination] rest IH]; intros n args H; [destruct H|].
  cbn [loop_records] in H. apply in_app_or in H. destruct H as [H|H].
  - unfold iter_records in H. destruct H as [<-|H].
    + simpl. discriminate.
    + eapply sync_records_not_elapsed, H.
  - eapply IH, H.
Qed.

(** X5.  The last record of a run of [main] is the info record
    [Backup process completed in <elapsed> minutes], and the run logs it
    once: none of the records before it, whatever the children wrote or
    however they ended, is an info record that starts like it. *)
Theorem elapsed_logged_once_at_end st :
  Logging.isEnabledFor INFO st = true ->
  exists st' body,
    main env cfg st = Ok tt st' /\
    emitted st'
    = emitted st ++ body
        ++ [mkRecord INFO ("Backup process completed in "
                             +++ env_elapsed env (List.length (popen_calls st'))
                             +++ " minutes")] /\
    Forall (fun r => forall text,
                r <> mkRecord INFO ("Backup process completed in " +++ text)) body.
Proof.
  intros Hinfo. exists (main_state env cfg st). eexists.
  split; [apply main_run|]. split.
  - rewrite main_state_emitted. unfold elapsed_record.
    rewrite (accepted_one st INFO _ Hinfo). reflexivity.
  - apply Forall_forall. intros r Hr text.
    apply accepted_In in Hr. eapply loop_records_not_elapsed, Hr.
Qed.

Lemma loop_records_app pre post : forall n args,
  loop_records env cfg n args (pre ++ post)
  = loop_records env cfg n args pre
      ++ loop_records env cfg (n + List.length pre) (loop_args cfg args pre) post.
Proof.
  induction pre as [|[source destination] pre IH]; intros n args.
  - simpl. now rewrite Nat.add_0_r.
  - cbn [app loop_records loop_args List.length]. rewrite IH, <- app_assoc.
    now rewrite Nat.add_succ_r.
Qed.

(** X6.  The failures of other pairs do not take a pair's completion
    record away: when the streams of the child of the pair at some
    position of the configuration are read to their end and that child
    exits with status 0, the run of [main] logs
    [Sync completed for <source> to <destination>] for it, whatever the
    children of the other pairs do. *)
Theorem completion_despite_failures st pre source destination post out err :
  BACKUP_LOCATIONS cfg = pre ++ (source, destination) :: post ->
  (forall command,
      env_popen env (List.length (popen_calls st) + List.length pre) command
      = Exited out err 0) ->
  Logging.isEnabledFor INFO st = true ->
  exists st' before after,
    main env cfg st = Ok tt st' /\
    emitted st'
    = emitted st ++ before
        ++ mkRecord INFO ("Sync completed for " +++ source +++ " to " +++ destination)
        :: after.
Proof.
  intros Hitems Hchild Hinfo.
  set (n := List.length (popen_calls st)).
  set (args := loop_args cfg (ARGS st) pre).
  set (command := sync_command source destination (Some (args_for cfg args source))).
  set (later := loop_records env cfg (S (n + List.length pre))
                  (args_for cfg args source) post).
  exists (main_state env cfg st).
  exists (accepted st (loop_records env cfg n (ARGS st) pre)
            ++ accepted st [mkRecord INFO ("Syncing " +++ source +++ " to " +++ destination);
                            running_record command]
            ++ accepted st (debug_records out)
            ++ accepted st (debug_records err)).
  exists (accepted st later
            ++ accepted st
                 [elapsed_record
                    (env_elapsed env (List.length (popen_calls (main_state env cfg st))))]).
  split; [apply main_run|].
  rewrite main_state_emitted, Hitems, loop_records_app.
  cbn [loop_records]. unfold iter_records at 1, sync_records at 1.
  fold n args command. rewrite Hchild, outcome_records_Exited. cbn [Z.eqb].
  fold later.
  change (mkRecord INFO ("Syncing " +++ source +++ " to " +++ destination)
            :: running_record command
            :: debug_records out ++ debug_records err
                 ++ [completed_record source destination])
    with ([mkRecord INFO ("Syncing " +++ source +++ " to " +++ destination);
           running_record command]
            ++ debug_records out ++ debug_records err
            ++ [completed_record source destination]).
  rewrite !accepted_app. unfold completed_record at 1.
  rewrite (accepted_one st INFO _ Hinfo).
  rewrite <- !app_assoc. reflexivity.
Qed.

End RunExtras.

(** ** Where the records go *)

Section SinkExtras.

Variable env : Env.
Variable cfg : Config.

(** A handler at the level of the logger admits what the logger accepts. *)
Lemma handler_admits l st level :
  Logging.isEnabledFor l st = true -> logger_level st = level ->
  (level <=? levelno l)%Z = true.
Proof.
  unfold Logging.isEnabledFor, Logging.getEffectiveLevel. intros H <-.
  destruct (logger_level st =? NOTSET)%Z eqn:E; [|exact H].
  apply Z.eqb_eq in E. rewrite E. now destruct l.
Qed.

Lemma emit_file h r st f mb bc :
  h_sink h = FileSink f mb bc ->
  let st' := Logging.emit env h r st in
  untouched st st' /\
  (env_writable env f = true ->
   log_written st' = log_written st ++ [(f, r)] /\ console st' = console st) /\
  (env_writable env f = false -> open_streams st = [] ->
   log_written st' = log_written st /\ open_streams st' = [] /\
   console st' = console st ++ [LoggingError r]).
Proof.
  intros Hs. cbv zeta. split; [apply emit_untouched|].
  unfold Logging.emit, Logging.stream_is_open. rewrite Hs. split.
  - intros Hw. rewrite Hw. destruct (existsb _ _); split; reflexivity.
  - intros Hw Ho. rewrite Ho, Hw. cbn [existsb]. repeat split. exact Ho.
Qed.

Lemma emit_console h r st :
  h_sink h = StderrSink ->
  Logging.emit env h r st = set_console (console st ++ [Mirrored r]) st.
Proof. unfold Logging.emit. now intros ->. Qed.


Lemma errors_reported_preserved :
  env_writable env (LOG_FILE cfg) = false ->
  preserved env (errors_reported cfg).
Proof.
  intros Hw. split; [|split]; [|intros c st J; exact J|intros a st J; exact J].
  intros l msg st (L & H & O & W & C). unfold log_state.
  destruct (Logging.isEnabledFor l st) eqn:En; [|now repeat split].
  pose proof (handler_admits l st _ En L) as Hadm.
  set (r := mkRecord l msg).
  set (st0 := set_emitted (emitted st ++ [r]) st).
  unfold Logging.callHandlers.
  change (logger_handlers st0) with (logger_handlers st). rewrite H.
  destruct (emit_file (file_handler cfg) r st0 _ _ _ eq_refl) as (U & _ & F).
  destruct (F Hw O) as (W1 & O1 & C1). destruct U as (_ & L1 & H1 & _ & E1 & _).
  set (st1 := Logging.emit env (file_handler cfg) r st0) in *.
  change (emitted st0) with (emitted st ++ [r]) in E1.
  change (log_written st0) with (log_written st) in W1.
  change (console st0) with (console st) in C1.
  change (logger_level st0) with (logger_level st) in L1.
  change (logger_handlers st0) with (logger_handlers st) in H1.
  cbn [Logging.call_each file_handler console_handler h_level levelname r].
  rewrite Hadm. fold (file_handler cfg). fold r. fold st1.
  fold (console_handler cfg). rewrite (emit_console (console_handler cfg) r st1 eq_refl).
  unfold errors_reported.
  cbn [logger_level logger_handlers log_written console emitted open_streams set_console].
  rewrite L1, H1, W1, O1, C1, E1, W, C, flat_map_app, H, L. simpl.
  rewrite <- app_assoc. now repeat split.
Qed.

(** The state after the module has called [console_output]. *)
Lemma toggled_setup_state enabled :
  let st := toggle_state env (console_handler cfg) enabled (setup_state cfg) in
  st = log_state env INFO (message (toggle_notice enabled))
         (if enabled then setup_state cfg
          else set_logger_handlers [file_handler cfg] (setup_state cfg)).
Proof. now destruct enabled. Qed.


(** X8.  With a log file that cannot be opened and [CONSOLE_OUTPUT] on,
    a run of the script reports a logging error on standard error for
    every record the logger emits, each time before the console handler
    writes the record; the log file gets nothing. *)
Theorem every_record_reports_an_error :
  env_writable env (LOG_FILE cfg) = false ->
  CONSOLE_OUTPUT cfg = true ->
  exists console_logging st,
    module_body env cfg true (initial_state cfg) = Ok console_logging st /\
    console st = flat_map (fun r => [LoggingError r; Mirrored r]) (emitted st) /\
    log_written st = [].
Proof.
  intros Hw Hc. do 2 eexists. split; [exact (module_body_run env cfg)|].
  pose proof (errors_reported_preserved Hw) as HP.
  assert (J : errors_reported cfg
                (toggle_state env (console_handler cfg) (CONSOLE_OUTPUT cfg)
                   (setup_state cfg))).
  { rewrite (toggled_setup_state (CONSOLE_OUTPUT cfg)), Hc.
    destruct HP as (Hlog & _). apply Hlog. now repeat split. }
  destruct (main_state_preserved env cfg _ _ HP J) as (_ & _ & _ & W & C).
  now split.
Qed.

Lemma log_state_not_mirrored l msg st :
  logger_handlers st = [file_handler cfg] ->
  mirrored (console (log_state env l msg st)) = mirrored (console st).
Proof.
  intros Hh. unfold log_state.
  destruct (Logging.isEnabledFor l st); [|reflexivity].
  unfold Logging.callHandlers. cbn [logger_handlers set_emitted]. rewrite Hh.
  cbn [Logging.call_each].
  destruct (h_level (file_handler cfg) <=? levelno (levelname (mkRecord l msg)))%Z;
    [|reflexivity].
  rewrite emit_mirrored. cbn [h_sink file_handler console set_emitted].
  apply app_nil_r.
Qed.

(** X9.  After [setup_logging] and any calls of [console_output] of
    which the last one disables the console, the console handler is not
    in the handler list of the logger (disabling twice is harmless), and
    no record logged from then on is written to the console. *)
Theorem console_stays_off calls :
  exists console_logging st0 st,
    setup_logging env (LOG_FILE cfg) (LOG_SIZE cfg) (LOG_BACKUPS cfg) (LOG_LEVEL cfg)
      (initial_state cfg) = Ok ("rclone_backup", console_logging) st0 /\
    for_each (calls ++ [false]) (console_output env console_logging) st0 = Ok tt st /\
    filter (same_handler console_logging) (logger_handlers st) = [] /\
    forall l msg, exists st',
      Logging.log env l msg st = Ok tt st' /\
      mirrored (console st') = mirrored (console st).
Proof.
  exists (console_handler cfg), (setup_state cfg),
    (toggles_state env (console_handler cfg) (calls ++ [false]) (setup_state cfg)).
  split; [exact (setup_logging_run env cfg)|].
  split; [apply for_each_toggles|].
  assert (H0 : reachable_handlers cfg (setup_state cfg)) by now left.
  destruct (toggles_state_shape env cfg calls (setup_state cfg) H0) as (_ & H1 & _).
  unfold toggles_state in *. rewrite fold_left_app. cbn [fold_left].
  set (st1 := fold_left _ calls (setup_state cfg)) in *.
  destruct (toggle_state_shape env cfg false st1 H1) as (_ & Hh & _).
  split; [now rewrite Hh|].
  intros l msg. eexists. split; [apply log_run|].
  now apply log_state_not_mirrored.
Qed.

(** X10.  [console_output] changes the handler list before it logs its
    notice: the notice of enabling is written to the console, the notice
    of disabling is not. *)
Theorem toggle_notice_sink calls enabled :
  LOG_LEVEL cfg = levelno DEBUG ->
  exists st st',
    for_each calls (console_output env (console_handler cfg)) (setup_state cfg)
    = Ok tt st /\
    console_output env (console_handler cfg) enabled st = Ok tt st' /\
    mirrored (console st')
    = mirrored (console st)
        ++ (if enabled then [mkRecord INFO "Console logging enabled"] else []).
Proof.
  intros Hcfg.
  exists (toggles_state env (console_handler cfg) calls (setup_state cfg)). eexists.
  split; [apply for_each_toggles|]. split; [apply console_output_run|].
  assert (H0 : reachable_handlers cfg (setup_state cfg)) by now left.
  destruct (toggles_state_shape env cfg calls (setup_state cfg) H0) as (L & H & _).
  set (st := toggles_state env (console_handler cfg) calls (setup_state cfg)) in *.
  change (logger_level (setup_state cfg)) with (LOG_LEVEL cfg) in L.
  unfold toggle_state. destruct enabled.
  - set (X := if existsb _ _ then st else _).
    assert (HX : console X = console st /\ logger_level X = LOG_LEVEL cfg /\
                 logger_handlers X = [file_handler cfg; console_handler cfg])
      by (subst X; destruct H as [H|H]; rewrite H; simpl; repeat split;
          assumption).
    destruct HX as (C & LX & HhX).
    rewrite (log_state_mirrored env cfg _ _ X Hcfg LX HhX). now rewrite C.
  - set (X := if existsb _ _ then _ else st).
    assert (HX : console X = console st /\ logger_handlers X = [file_handler cfg])
      by (subst X; destruct H as [H|H]; rewrite H; simpl; repeat split;
          assumption).
    destruct HX as (C & HhX).
    rewrite (log_state_not_mirrored _ _ X HhX), app_nil_r. now rewrite C.
Qed.

End SinkExtras.

(** ** [setup_logging], called again *)

Section SetupExtras.

Variable env : Env.
Variable cfg : Config.

(** X11.  [setup_logging] is not idempotent.  Each call creates two new
    handler objects and adds them to the one logger named
    [rclone_backup]; after a second call with the same arguments the
    logger has four handlers, and every record it accepts is written to
    the console twice. *)
Theorem setup_logging_twice log_file max_bytes backup_count log_level l msg :
  (0 < log_level <= levelno l)%Z ->
  exists console1 st1 console2 st2 st',
    setup_logging env log_file max_bytes backup_count log_level (initial_state cfg)
    = Ok ("rclone_backup", console1) st1 /\
    setup_logging env log_file max_bytes backup_count log_level st1
    = Ok ("rclone_backup", console2) st2 /\
    same_handler console1 console2 = false /\
    List.length (logger_handlers st2) = 4 /\
    Logging.log env l msg st2 = Ok tt st' /\
    mirrored (console st') = mirrored (console st2) ++ [mkRecord l msg; mkRecord l msg].
Proof.
  intros Hl.
  pose (file := fun id => mkHandler id (FileSink log_file max_bytes backup_count)
                            log_level (Some log_formatting)).
  pose (cons := fun id => mkHandler id StderrSink log_level (Some log_formatting)).
  pose (st1 := mkState (ARGS_literal cfg) log_level [file 0; cons 1] 2 [] [] [] [] []
                 true).
  pose (st2 := mkState (ARGS_literal cfg) log_level
                 [file 0; cons 1; file 2; cons 3] 4 [] [] [] [] [] true).
  exists (cons 1), st1, (cons 3), st2.
  exists (log_state env l msg st2).
  split; [reflexivity|]. split; [reflexivity|]. split; [reflexivity|].
  split; [reflexivity|]. split; [apply log_run|].
  assert (E0 : (log_level =? NOTSET)%Z = false)
    by (apply Z.eqb_neq; unfold NOTSET; lia).
  assert (E1 : (log_level <=? levelno l)%Z = true) by (apply Z.leb_le; lia).
  unfold log_state, Logging.isEnabledFor, Logging.getEffectiveLevel.
  cbn [logger_level st2]. rewrite E0, E1.
  unfold Logging.callHandlers.
  cbn [logger_handlers set_emitted st2 Logging.call_each h_level file cons levelname].
  rewrite !E1, !(emit_mirrored env).
  cbn [h_sink console set_emitted]. now rewrite !app_nil_r, <- app_assoc.
Qed.

End SetupExtras.

(** ** The further properties on the sample runs *)

Lemma sync_starts_one_child_witness :
  exists st' later,
    rclone_sync (sample_env true) "/srv/a/" "remote:a/" None (sample_state 3) = Ok tt st' /\
    popen_calls st'
    = popen_calls (sample_state 3) ++ [["rclone"; "sync"; "/srv/a/"; "remote:a/"]] /\
    emitted st'
    = emitted (sample_state 3)
        ++ mkRecord INFO "Running command: rclone sync /srv/a/ remote:a/" :: later /\
    ARGS st' = ARGS (sample_state 3) /\
    logger_level st' = logger_level (sample_state 3) /\
    logger_handlers st' = logger_handlers (sample_state 3).
Proof.
  apply (sync_starts_one_child (sample_env true) (sample_state 3)
           "/srv/a/" "remote:a/" None).
  reflexivity.
Defined.

Lemma quiet_success_witness :
  rclone_sync (sample_env true) "/srv/a/" "remote:a/" (Some ["--verbose"]) quiet_state
  = Ok tt (set_popen_calls [["rclone"; "sync"; "/srv/a/"; "remote:a/"; "--verbose"]]
             quiet_state).
Proof.
  eapply (quiet_success (sample_env true) quiet_state
            "/srv/a/" "remote:a/" (Some ["--verbose"])).
  - reflexivity.
  - reflexivity.
Defined.

Lemma main_without_home_witness :
  exists st',
    main (sample_env true) no_home_config (sample_state 0) = Ok tt st' /\
    ARGS st' = ["--verbose"] /\
    popen_calls st'
    = [ ["rclone"; "sync"; "/srv/a/"; "remote:a/"; "--verbose"];
        ["rclone"; "sync"; "/home/u/"; "remote:home/"; "--verbose"];
        ["rclone"; "sync"; "/srv/b/"; "remote:b/"; "--verbose"] ].
Proof.
  apply (main_without_home (sample_env true) no_home_config (sample_state 0)).
  simpl. intros pair [<-|[<-|[<-|[]]]]; simpl; discriminate.
Defined.

Lemma main_times_args_witness :
  exists st',
    main_times (sample_env true) sample_config 3 (sample_state 0) = Ok tt st' /\
    ARGS st' = ["--verbose"; "--exclude=.*"; "--exclude=.*"; "--exclude=.*"] /\
    List.length (popen_calls st') = 9.
Proof.
  apply (main_times_args (sample_env true) sample_config 3 (sample_state 0)
           [("/srv/a/", "remote:a/")] "remote:home/" [("/srv/b/", "remote:b/")]).
  - reflexivity.
  - simpl. repeat constructor; simpl; intuition discriminate.
Defined.

Lemma elapsed_logged_once_at_end_witness :
  exists st' body,
    main (sample_env true) sample_config (sample_state 0) = Ok tt st' /\
    emitted st'
    = emitted (sample_state 0) ++ body
        ++ [mkRecord INFO ("Backup process completed in "
                             +++ env_elapsed (sample_env true)
                                   (List.length (popen_calls st'))
                             +++ " minutes")] /\
    Forall (fun r => forall text,
                r <> mkRecord INFO ("Backup process completed in " +++ text)) body.
Proof.
  apply (elapsed_logged_once_at_end (sample_env true) sample_config (sample_state 0)).
  reflexivity.
Defined.

Lemma completion_despite_failures_witness :
  exists st' before after,
    main (sample_env true) sample_config (sample_state 0) = Ok tt st' /\
    emitted st'
    = emitted (sample_state 0) ++ before
        ++ mkRecord INFO "Sync completed for /srv/a/ to remote:a/" :: after.
Proof.
  eapply (completion_despite_failures (sample_env true) sample_config (sample_state 0)
            [] "/srv/a/" "remote:a/"
            [("/home/u/", "remote:home/"); ("/srv/b/", "remote:b/")]).
  - reflexivity.
  - intros command. reflexivity.
  - reflexivity.
Defined.


Lemma every_record_reports_an_error_witness :
  exists console_logging st,
    module_body unwritable_env sample_config true (initial_state sample_config)
    = Ok console_logging st /\
    console st = flat_map (fun r => [LoggingError r; Mirrored r]) (emitted st) /\
    log_written st = [].
Proof.
  apply (every_record_reports_an_error unwritable_env sample_config).
  - reflexivity.
  - reflexivity.
Defined.

Lemma toggle_notice_sink_witness :
  exists st st',
    for_each [true; false] (console_output (sample_env true) (console_handler sample_config))
      (setup_state sample_config) = Ok tt st /\
    console_output (sample_env true) (console_handler sample_config) false st = Ok tt st' /\
    mirrored (console st') = mirrored (console st) ++ [].
Proof.
  apply (toggle_notice_sink (sample_env true) sample_config [true; false] false).
  reflexivity.
Defined.

Lemma setup_logging_twice_witness :
  exists console1 st1 console2 st2 st',
    setup_logging (sample_env true) "pyBackup.log" 1000 2 10 (initial_state sample_config)
    = Ok ("rclone_backup", console1) st1 /\
    setup_logging (sample_env true) "pyBackup.log" 1000 2 10 st1
    = Ok ("rclone_backup", console2) st2 /\
    same_handler console1 console2 = false /\
    List.length (logger_handlers st2) = 4 /\
    Logging.log (sample_env true) INFO "hello" st2 = Ok tt st' /\
    mirrored (console st')
    = mirrored (console st2) ++ [mkRecord INFO "hello"; mkRecord INFO "hello"].
Proof.
  apply (setup_logging_twice (sample_env true) sample_config "pyBackup.log" 1000 2 10
           INFO "hello").
  simpl. lia.
Defined.

(** ** What [main] leaves alone, and what importing the module does *)

Section ModuleExtras.

Variable env : Env.
Variable cfg : Config.

Lemma log_state_untouched l msg st :
  logger_level (log_state env l msg st) = logger_level st /\
  logger_handlers (log_state env l msg st) = logger_handlers st /\
  next_id (log_state env l msg st) = next_id st.
Proof.
  unfold log_state. destruct (Logging.isEnabledFor l st); [|now repeat split].
  destruct (callHandlers_untouched env (mkRecord l msg)
              (set_emitted (emitted st ++ [mkRecord l msg]) st))
    as (_ & L & H & N & _).
  now repeat split.
Qed.

(** X12.  [main] leaves the configuration of the logger alone: whatever
    the children do, the level and the handler list are after the run what
    they were before it, and no handler object was created. *)
Theorem main_keeps_logger st :
  exists st',
    main env cfg st = Ok tt st' /\
    logger_level st' = logger_level st /\
    logger_handlers st' = logger_handlers st /\
    next_id st' = next_id st.
Proof.
  exists (main_state env cfg st). split; [apply main_run|].
  apply (main_state_preserved env cfg
           (fun s => logger_level s = logger_level st /\
                     logger_handlers s = logger_handlers st /\
                     next_id s = next_id st)); [|now repeat split].
  split; [|split]; [|intros c s J; exact J|intros a s J; exact J].
  intros l msg s (L & H & N).
  destruct (log_state_untouched l msg s) as (L' & H' & N').
  repeat split; congruence.
Qed.


End ModuleExtras.



(** * The log file that cannot be opened: claim C2 *)

Section LogFileClaims.

Variable env : Env.
Variable cfg : Config.

Lemma logging_errors_app a b :
  logging_errors (a ++ b) = logging_errors a ++ logging_errors b.
Proof.
  induction a as [|[r|r|r] a IH]; simpl; [reflexivity|assumption| |assumption].
  now rewrite IH.
Qed.

Lemma failures_reported_preserved :
  env_writable env (LOG_FILE cfg) = false ->
  preserved env (failures_reported cfg).
Proof.
  intros Hw. split; [|split]; [|intros c st J; exact J|intros a st J; exact J].
  intros l msg st (L & R & O & W & C). unfold log_state.
  destruct (Logging.isEnabledFor l st) eqn:En; [|now repeat split].
  pose proof (handler_admits l st _ En L) as Hadm.
  set (r := mkRecord l msg).
  set (st0 := set_emitted (emitted st ++ [r]) st).
  destruct (emit_file env (file_handler cfg) r st0 _ _ _ eq_refl) as (U & _ & F).
  destruct (F Hw O) as (W1 & O1 & C1). destruct U as (_ & L1 & H1 & _ & E1 & _).
  set (st1 := Logging.emit env (file_handler cfg) r st0) in *.
  change (emitted st0) with (emitted st ++ [r]) in E1.
  change (log_written st0) with (log_written st) in W1.
  change (console st0) with (console st) in C1.
  change (logger_level st0) with (logger_level st) in L1.
  change (logger_handlers st0) with (logger_handlers st) in H1.
  unfold Logging.callHandlers.
  change (logger_handlers st0) with (logger_handlers st).
  destruct R as [H|H]; rewrite H;
    cbn [Logging.call_each file_handler console_handler h_level levelname r];
    rewrite Hadm; fold (file_handler cfg); fold r; fold st1.
  - fold (console_handler cfg).
    rewrite (emit_console env (console_handler cfg) r st1 eq_refl).
    unfold failures_reported, reachable_handlers.
    cbn [logger_level logger_handlers log_written console emitted open_streams
         set_console].
    rewrite L1, H1, W1, O1, C1, E1, !logging_errors_app, C, H, L. simpl.
    rewrite app_nil_r. repeat split; auto.
  - unfold failures_reported, reachable_handlers.
    rewrite L1, H1, W1, O1, C1, E1, !logging_errors_app, C, H, L. simpl.
    repeat split; auto.
Qed.

Lemma setup_logging_run_in cwd :
  cwd || Logging.isabs (LOG_FILE cfg) = true ->
  setup_logging env (LOG_FILE cfg) (LOG_SIZE cfg) (LOG_BACKUPS cfg) (LOG_LEVEL cfg)
    (initial_state_in cwd cfg)
  = Ok ("rclone_backup", console_handler cfg) (set_cwd_exists cwd (setup_state cfg)).
Proof.
  intros H. unfold setup_logging, Logging.RotatingFileHandler, Logging.abspath.
  unfold bind at 1 2. cbn [cwd_exists set_cwd_exists initial_state_in].
  rewrite H. reflexivity.
Qed.

Lemma setup_logging_raises_in cwd :
  cwd || Logging.isabs (LOG_FILE cfg) = false ->
  setup_logging env (LOG_FILE cfg) (LOG_SIZE cfg) (LOG_BACKUPS cfg) (LOG_LEVEL cfg)
    (initial_state_in cwd cfg)
  = Raise (OtherException Logging.getcwd_error) (initial_state_in cwd cfg).
Proof.
  intros H. unfold setup_logging, Logging.RotatingFileHandler, Logging.abspath.
  unfold bind at 1 2. cbn [cwd_exists set_cwd_exists initial_state_in].
  rewrite H. reflexivity.
Qed.

Lemma toggle_state_attached enabled st :
  logger_handlers st = [file_handler cfg; console_handler cfg] ->
  toggle_state env (console_handler cfg) enabled st
  = log_state env INFO (message (toggle_notice enabled))
      (if enabled then st else set_logger_handlers [file_handler cfg] st).
Proof.
  intros H. unfold toggle_state. rewrite H. now destruct enabled.
Qed.

(** C2, as the script has it.  [setup_logging] creates the file handler
    with [delay=True] and so does not open the log file.  When the path of
    the log file can be resolved (it is absolute, or the working directory
    exists), [setup_logging] returns the logger and the console handler
    though the file cannot be opened, and writes nothing to standard
    error; the script then runs to its end with exit code 0: [main] starts
    one child per configured pair, nothing is written to the log file, and
    for every record the logger emits the file handler's failed attempt to
    open the file is reported on standard error, once.  When the path is
    relative and the working directory was removed, [setup_logging]
    raises the error of [os.getcwd()]: the script ends there with exit
    code 1, before any record and any child. *)
Theorem unwritable_log_is_deferred (cwd : bool) :
  env_writable env (LOG_FILE cfg) = false ->
  (cwd || Logging.isabs (LOG_FILE cfg) = true ->
   exists console_logging st0 st,
     setup_logging env (LOG_FILE cfg) (LOG_SIZE cfg) (LOG_BACKUPS cfg) (LOG_LEVEL cfg)
       (initial_state_in cwd cfg) = Ok ("rclone_backup", console_logging) st0 /\
     open_streams st0 = [] /\
     console st0 = [] /\
     module_body env cfg true (initial_state_in cwd cfg) = Ok console_logging st /\
     exit_code_of (module_body env cfg true (initial_state_in cwd cfg)) = 0%Z /\
     Forall2 (fun pair command =>
                exists args, command = sync_command (fst pair) (snd pair) (Some args))
             (BACKUP_LOCATIONS cfg) (popen_calls st) /\
     log_written st = [] /\
     logging_errors (console st) = emitted st) /\
  (cwd || Logging.isabs (LOG_FILE cfg) = false ->
   exists st,
     setup_logging env (LOG_FILE cfg) (LOG_SIZE cfg) (LOG_BACKUPS cfg) (LOG_LEVEL cfg)
       (initial_state_in cwd cfg) = Raise (OtherException Logging.getcwd_error) st /\
     module_body env cfg true (initial_state_in cwd cfg)
     = Raise (OtherException Logging.getcwd_error) st /\
     exit_code_of (module_body env cfg true (initial_state_in cwd cfg)) = 1%Z /\
     emitted st = [] /\
     popen_calls st = []).
Proof.
  intros Hw. split; intros Hpath.
  - set (st0 := set_cwd_exists cwd (setup_state cfg)).
    set (st1 := toggle_state env (console_handler cfg) (CONSOLE_OUTPUT cfg) st0).
    assert (Hrun : module_body env cfg true (initial_state_in cwd cfg)
                   = Ok (console_handler cfg) (main_state env cfg st1)).
    { unfold module_body.
      rewrite (bind_ok _ _ _ _ _ (setup_logging_run_in cwd Hpath)). cbn [snd].
      rewrite (bind_ok _ _ _ _ _ (console_output_run env _ _ _)).
      now rewrite (bind_ok _ _ _ _ _ (main_run env cfg _)). }
    exists (console_handler cfg), st0, (main_state env cfg st1).
    split; [exact (setup_logging_run_in cwd Hpath)|].
    split; [reflexivity|]. split; [reflexivity|]. split; [exact Hrun|].
    split; [now rewrite Hrun|].
    assert (E1 : st1 = log_state env INFO (message (toggle_notice (CONSOLE_OUTPUT cfg)))
                         (if CONSOLE_OUTPUT cfg then st0
                          else set_logger_handlers [file_handler cfg] st0))
      by (apply toggle_state_attached; reflexivity).
    pose proof (failures_reported_preserved Hw) as HP.
    assert (J1 : failures_reported cfg st1).
    { rewrite E1. destruct HP as (Hlog & _). apply Hlog.
      unfold failures_reported, reachable_handlers.
      destruct (CONSOLE_OUTPUT cfg); repeat split; auto. }
    assert (P1 : popen_calls st1 = []).
    { rewrite E1.
      match goal with
      | |- popen_calls (log_state env INFO ?m ?s) = _ =>
          destruct (effect_log env INFO m s) as (_ & _ & _ & P & _);
          rewrite P, app_nil_r
      end.
      now destruct (CONSOLE_OUTPUT cfg). }
    destruct (main_state_preserved env cfg _ st1 HP J1) as (_ & _ & _ & W & C).
    split; [|now split].
    destruct (main_state_shape env cfg st1) as (_ & P). rewrite P, P1.
    apply loop_commands_pairs.
  - assert (Hrun : module_body env cfg true (initial_state_in cwd cfg)
                   = Raise (OtherException Logging.getcwd_error)
                       (initial_state_in cwd cfg)).
    { unfold module_body. unfold bind at 1.
      now rewrite (setup_logging_raises_in cwd Hpath). }
    exists (initial_state_in cwd cfg).
    split; [exact (setup_logging_raises_in cwd Hpath)|].
    split; [exact Hrun|]. split; [now rewrite Hrun|]. now split.
Qed.

End LogFileClaims.

Lemma unwritable_log_is_deferred_witness :
  (exists console_logging st0 st,
     setup_logging unwritable_env (LOG_FILE script_config) (LOG_SIZE script_config)
       (LOG_BACKUPS script_config) (LOG_LEVEL script_config)
       (initial_state_in true script_config) = Ok ("rclone_backup", console_logging) st0 /\
     open_streams st0 = [] /\
     console st0 = [] /\
     module_body unwritable_env script_config true (initial_state_in true script_config)
     = Ok console_logging st /\
     exit_code_of (module_body unwritable_env script_config true
                     (initial_state_in true script_config)) = 0%Z /\
     Forall2 (fun pair command =>
                exists args, command = sync_command (fst pair) (snd pair) (Some args))
             (BACKUP_LOCATIONS script_config) (popen_calls st) /\
     log_written st = [] /\
     logging_errors (console st) = emitted st) /\
  (exists st,
     setup_logging unwritable_env (LOG_FILE script_config) (LOG_SIZE script_config)
       (LOG_BACKUPS script_config) (LOG_LEVEL script_config)
       (initial_state_in false script_config)
     = Raise (OtherException Logging.getcwd_error) st /\
     module_body unwritable_env script_config true (initial_state_in false script_config)
     = Raise (OtherException Logging.getcwd_error) st /\
     exit_code_of (module_body unwritable_env script_config true
                     (initial_state_in false script_config)) = 1%Z /\
     emitted st = [] /\
     popen_calls st = []).
Proof.
  split.
  - apply (proj1 (unwritable_log_is_deferred unwritable_env script_config true eq_refl)).
    reflexivity.
  - apply (proj2 (unwritable_log_is_deferred unwritable_env script_config false eq_refl)).
    reflexivity.
Defined.

(** * Children whose output cannot be read: claims C4 and C5 *)

Lemma drop_prefix_append (needle post : string) :
  Text.drop_prefix needle (needle +++ post) = Some post.
Proof.
  induction needle as [|c needle IH]; simpl; [reflexivity|].
  now rewrite Ascii.eqb_refl.
Qed.

Lemma contains_unfold (needle hay : string) :
  Text.contains needle hay
  = match Text.drop_prefix needle hay with
    | Some _ => true
    | None =>
        match hay with
        | EmptyString => false
        | String _ rest => Text.contains needle rest
        end
    end.
Proof. now destruct hay. Qed.

Lemma occurs_in_contains (needle hay : string) :
  Text.occurs_in needle hay -> Text.contains needle hay = true.
Proof.
  intros (pre & post & ->). induction pre as [|c pre IH].
  - rewrite contains_unfold. simpl. now rewrite drop_prefix_append.
  - rewrite contains_unfold.
    destruct (Text.drop_prefix needle (String c pre +++ needle +++ post));
      [reflexivity|exact IH].
Qed.

Section ReadErrors.

Variable env : Env.

Implicit Types (st : State) (source destination text : string)
  (args : option (list string)) (out err : list ReadResult) (code : Z).

(** X14.  When reading a pipe of the child raises, as [readline()] does
    on output that does not decode, [rclone_sync] catches the exception:
    it has logged the lines read before, it logs the error record
    [An error occurred: <text>], and it returns normally.  Whatever the
    exit status of the child, it logs neither [Sync completed] nor the
    report of a failed sync. *)
Theorem read_error_is_caught st source destination args out err code text :
  env_popen env (List.length (popen_calls st)) (sync_command source destination args)
  = Ran out err code ->
  read_error out = Some text \/ (read_error out = None /\ read_error err = Some text) ->
  Logging.isEnabledFor ERROR st = true ->
  exists st' earlier,
    rclone_sync env source destination args st = Ok tt st' /\
    emitted st'
    = emitted st ++ earlier ++ [mkRecord ERROR ("An error occurred: " +++ text)] /\
    Forall (fun r => r = mkRecord INFO ("Running command: "
                                          +++ Text.join " "
                                                (sync_command source destination args))
                     \/ levelname r = DEBUG) earlier.
Proof.
  intros Hchild Hread Herror.
  set (command := sync_command source destination args) in *.
  exists (sync_state env source destination args st).
  exists (accepted st [running_record command]
            ++ accepted st (line_records (lines_read out)
                              ++ match read_error out with
                                 | Some _ => []
                                 | None => line_records (lines_read err)
                                 end)).
  split; [apply rclone_sync_run|]. split.
  - rewrite rclone_sync_emitted. fold command. rewrite Hchild. unfold outcome_records.
    destruct Hread as [Ho|(Ho & He)]; rewrite Ho; [|rewrite He];
      rewrite ?app_nil_r, !accepted_app; unfold launch_record;
      rewrite (accepted_one st ERROR _ Herror); now rewrite <- !app_assoc.
  - apply Forall_app. split; apply Forall_forall; intros r Hr; apply accepted_In in Hr.
    + destruct Hr as [<-|[]]. now left.
    + right. apply in_app_or in Hr.
      assert (Hl : forall lines, In r (line_records lines) -> levelname r = DEBUG).
      { unfold line_records. intros lines H. apply in_map_iff in H.
        now destruct H as (line & <- & _). }
      destruct Hr as [Hr|Hr]; [exact (Hl _ Hr)|].
      destruct (read_error out); [destruct Hr|exact (Hl _ Hr)].
Qed.

End ReadErrors.

(** C4, as claimed, fails: a child that prints bytes that do not decode
    and exits with status 0 gets the record of the [except Exception]
    clause, and no [Sync completed] record. *)
Lemma undecodable_success_is_not_logged :
  exit_status (env_popen (undecodable_env 0) 0
                 (sync_command "/srv/a/" "remote:a/" (Some ["--verbose"]))) = Some 0%Z /\
  Logging.isEnabledFor INFO (sample_state 0) = true /\
  exists st',
    rclone_sync (undecodable_env 0) "/srv/a/" "remote:a/" (Some ["--verbose"])
      (sample_state 0) = Ok tt st' /\
    emitted st'
    = [mkRecord INFO "Running command: rclone sync /srv/a/ remote:a/ --verbose";
       mkRecord DEBUG "ok";
       mkRecord ERROR ("An error occurred: " +++ decode_error)] /\
    ~ In (mkRecord INFO "Sync completed for /srv/a/ to remote:a/") (emitted st').
Proof.
  split; [reflexivity|]. split; [reflexivity|].
  eexists. split; [apply rclone_sync_run|].
  assert (E : emitted (sync_state (undecodable_env 0) "/srv/a/" "remote:a/"
                         (Some ["--verbose"]) (sample_state 0))
              = [mkRecord INFO "Running command: rclone sync /srv/a/ remote:a/ --verbose";
                 mkRecord DEBUG "ok";
                 mkRecord ERROR ("An error occurred: " +++ decode_error)])
    by (vm_compute; reflexivity).
  split; [exact E|]. rewrite E. simpl. intros [H|[H|[H|[]]]]; discriminate.
Qed.

(** C5, as claimed, fails: a child that prints bytes that do not decode
    and exits with status 1 gets the record of the [except Exception]
    clause only; no error record of the call names the source. *)
Lemma undecodable_failure_is_not_reported :
  exit_status (env_popen (undecodable_env 1) 0
                 (sync_command "/srv/a/" "remote:a/" (Some ["--verbose"]))) = Some 1%Z /\
  Logging.isEnabledFor ERROR (sample_state 0) = true /\
  exists st',
    rclone_sync (undecodable_env 1) "/srv/a/" "remote:a/" (Some ["--verbose"])
      (sample_state 0) = Ok tt st' /\
    emitted st'
    = [mkRecord INFO "Running command: rclone sync /srv/a/ remote:a/ --verbose";
       mkRecord DEBUG "ok";
       mkRecord ERROR ("An error occurred: " +++ decode_error)] /\
    Forall (fun r => levelname r = ERROR -> ~ Text.occurs_in "/srv/a/" (message r))
           (emitted st').
Proof.
  split; [reflexivity|]. split; [reflexivity|].
  eexists. split; [apply rclone_sync_run|].
  assert (E : emitted (sync_state (undecodable_env 1) "/srv/a/" "remote:a/"
                         (Some ["--verbose"]) (sample_state 0))
              = [mkRecord INFO "Running command: rclone sync /srv/a/ remote:a/ --verbose";
                 mkRecord DEBUG "ok";
                 mkRecord ERROR ("An error occurred: " +++ decode_error)])
    by (vm_compute; reflexivity).
  split; [exact E|]. rewrite E.
  repeat constructor; cbn [levelname message]; intros Hl Hocc; try discriminate Hl.
  apply occurs_in_contains in Hocc. vm_compute in Hocc. discriminate Hocc.
Qed.

Lemma read_error_is_caught_witness :
  exists st' earlier,
    rclone_sync (undecodable_env 0) "/srv/a/" "remote:a/" None (sample_state 0) = Ok tt st' /\
    emitted st'
    = emitted (sample_state 0) ++ earlier
        ++ [mkRecord ERROR ("An error occurred: " +++ decode_error)] /\
    Forall (fun r => r = mkRecord INFO "Running command: rclone sync /srv/a/ remote:a/"
                     \/ levelname r = DEBUG) earlier.
Proof.
  eapply (read_error_is_caught (undecodable_env 0) (sample_state 0)
            "/srv/a/" "remote:a/" None).
  - reflexivity.
  - left. reflexivity.
  - reflexivity.
Defined.
